(** * The cell agent's entry point ([cmd/rep/main.go]), embedded in Rocq

    The program under study is the [main] package of the cell
    representative: it parses a configuration, builds every component of
    the cell (executor, evacuation context, operation queue, auction
    representative, servers, bulker, event consumer, ...), starts them as an
    ordered group and waits for the group to finish.

    The embedding follows the Go text function by function.  Fallible and
    effectful code lives in a small state/abort monad ([M]): the state holds
    the objects built so far (a heap of constructor calls with their
    arguments, so that sharing of one instance between two consumers is
    visible) and the trace of observable events (log lines, certificate
    checks, the start of the group); a computation either returns, panics or
    exits the process with a status.  Results of calls that leave the
    program (file system, TLS, locket, the executor) are read from an
    environment record ([Env]). *)

From stdpp Require Import gmap strings list fin_maps.
From Stdlib Require Import ZArith Ascii String Lia.

(** ** Go strings

    A Go string is a sequence of bytes; [string] is a list of [ascii]. *)

Module GoStrings.

Definition bytes (s : string) : list ascii := list_ascii_of_string s.
Definition of_bytes (l : list ascii) : string := string_of_list_ascii l.

(** [strings.Split(s, sep)] for a one-byte separator, as both call sites
    use it ([":"]).  The result always has one more element than [s] has
    separators; in particular [Split "" sep = [""]]. *)
Fixpoint Split (s : string) (sep : ascii) : list string :=
  match s with
  | EmptyString => [EmptyString]
  | String c s' =>
      if Ascii.eqb c sep then EmptyString :: Split s' sep
      else match Split s' sep with
           | h :: t => String c h :: t
           | [] => [String c EmptyString]
           end
  end.

(** [strings.Contains(s, sep)] for a one-byte [sep]. *)
Fixpoint ContainsByte (s : string) (sep : ascii) : bool :=
  match s with
  | EmptyString => false
  | String c s' => Ascii.eqb c sep || ContainsByte s' sep
  end.

(** [strings.Replace(s, old, new, -1)] for one-byte [old] and [new]. *)
Fixpoint ReplaceByte (s : string) (old new : ascii) : string :=
  match s with
  | EmptyString => EmptyString
  | String c s' =>
      String (if Ascii.eqb c old then new else c) (ReplaceByte s' old new)
  end.

(** ASCII lower-casing of one byte: ['A'..'Z'] to ['a'..'z']. *)
Definition lowerByte (c : ascii) : ascii :=
  let n := nat_of_ascii c in
  if (65 <=? n)%nat && (n <=? 90)%nat then ascii_of_nat (n + 32) else c.

(** [strings.EqualFold(s, t)] on bytes.  Go folds Unicode runes; no rune
    outside ASCII folds to ['.'], ['t'], ['a'] or ['r'], so on every
    comparison against [".tar"] (the only use in the program) Go's result is
    the byte-wise one. *)
Fixpoint EqualFold (s t : string) : bool :=
  match s, t with
  | EmptyString, EmptyString => true
  | String a s', String b t' =>
      Ascii.eqb (lowerByte a) (lowerByte b) && EqualFold s' t'
  | _, _ => false
  end.

(** [strings.HasSuffix] and [strings.TrimSuffix], on the reversed bytes. *)
Fixpoint isPrefix (p l : list ascii) : bool :=
  match p, l with
  | [], _ => true
  | a :: p', b :: l' => Ascii.eqb a b && isPrefix p' l'
  | _ :: _, [] => false
  end.

Definition HasSuffix (s suffix : string) : bool :=
  isPrefix (rev (bytes suffix)) (rev (bytes s)).

Definition TrimSuffix (s suffix : string) : string :=
  if HasSuffix s suffix
  then of_bytes (rev (drop (List.length (bytes suffix)) (rev (bytes s))))
  else s.

End GoStrings.

(** ** Go's [path/filepath], Unix flavour (the separator is ['/'], there is
    no volume name) *)

Module Filepath.
Import GoStrings.

Definition IsPathSeparator (c : ascii) : bool := Ascii.eqb c "/"%char.

(** [filepath.Ext]: scan from the last byte towards the front, stop at a
    separator (no extension) or at the first dot met (the extension is the
    suffix that starts there).  [seen] is the part already scanned. *)
Fixpoint extScan (rpath : list ascii) (seen : list ascii) : list ascii :=
  match rpath with
  | [] => []
  | c :: r =>
      if IsPathSeparator c then []
      else if Ascii.eqb c "."%char then c :: seen
      else extScan r (c :: seen)
  end.

Definition Ext (path : string) : string :=
  of_bytes (extScan (rev (bytes path)) []).

Fixpoint dropSeparators (rpath : list ascii) : list ascii :=
  match rpath with
  | c :: r => if IsPathSeparator c then dropSeparators r else rpath
  | [] => []
  end.

Fixpoint lastElement (rpath : list ascii) : list ascii :=
  match rpath with
  | c :: r => if IsPathSeparator c then [] else c :: lastElement r
  | [] => []
  end.

(** [filepath.Base]: ["."] for the empty path; otherwise strip the trailing
    separators and keep what follows the last separator; ["/"] when nothing
    is left. *)
Definition Base (path : string) : string :=
  match path with
  | EmptyString => "."
  | _ =>
      match lastElement (dropSeparators (rev (bytes path))) with
      | [] => "/"
      | e => of_bytes (rev e)
      end
  end.

End Filepath.

Import GoStrings Filepath.

(** ** Errors, results and the startup monad *)

(** Go [error] values.  [SkipDir] and [SkipAll] are the two sentinels of
    [io/fs] that [filepath.WalkDir] compares against; every other error is
    [Err] with its message. *)
Inductive error : Type :=
| SkipDir
| SkipAll
| Err (msg : string).

(** How a computation of the process ends: it returns a value, it panics
    (a Go [panic], which is also how lager's [logger.Fatal] ends), or it
    calls [os.Exit]. *)
Inductive Res (A : Type) : Type :=
| Ret (a : A)
| Panic (v : string)
| Exit (code : Z).
Arguments Ret {A} a.
Arguments Panic {A} v.
Arguments Exit {A} code.

(** lager's log levels. *)
Inductive Level : Type := DEBUG | INFO | ERROR | FATAL.

(** References into the heap of constructed objects. *)
Abbreviation ref := nat (only parsing).

(** [evacuation_context.New()] returns three interface values over one
    shared evacuation state; a capability is that state together with the
    interface through which it is handed out. *)
Inductive Facet : Type := Evacuatable | EvacuationReporter | EvacuationNotifier.

Record Cap : Type := mkCap { cap_ctx : ref; cap_facet : Facet }.

(** The routes of the cell's HTTP surface. *)
Inductive Route : Type :=
| StateRoute | ContainerMetricsRoute | PerformRoute
| ResetRoute | UpdateLRPInstanceRoute | StopLRPInstanceRoute | CancelTaskRoute.

(** A member of the process group: a runner built by [main] (a heap
    reference) or one handed back by the executor's initializer. *)
Inductive Runner : Type :=
| RunnerOf (r : ref)
| ExecutorRunner (name : string).

(** One constructor per constructor call of [main], with the arguments that
    matter for the wiring.  Loggers, clocks and durations are left out. *)
Inductive Obj : Type :=
| MetronClient
| ExecutorClient (cellID zone : string) (rootFSMap : gmap string string)
    (sidecarRootFSPath : string) (metron : ref)
| ContainerMetricsProvider
| EvacuationContext
| SlidingQueue (capacity : Z)
| Evacuator (executor : ref) (notifier : Cap) (cellID : string)
| BBSClient
| PresenceRunner (cellID address url : string) (rootFSNames : list string)
| ContainerAllocator (rootFSMap : gmap string string) (executor : ref)
| AuctionCellRep (cellID url : string) (rootFSMap : gmap string string)
    (metricsProvider executor : ref) (reporter : Cap) (allocator : ref)
| RequestMetricsNotifier (metron : ref) (requestTypes : list string)
| Handlers (rep executor : ref) (evacuatable : Cap) (requestMetrics : ref)
    (networkAccessible : bool)
| TLSServer (addr : string) (routes : list Route) (handlers : ref)
| OperationGenerator (cellID zone : string) (rootFSMap : gmap string string)
    (bbs executor metron : ref) (reporter : Cap)
| EvacuationCleanup (cellID : string) (bbs executor metron : ref)
| Bulker (notifier : Cap) (generator queue metron : ref)
| EventConsumer (generator queue : ref)
| DebugServer (addr : string).

(** Observable events of a run, in the order they happen. *)
Inductive Event : Type :=
| Logged (lvl : Level) (action : string)
| CertificateChecked (file : string)
| EmitterStarted
| GroupInvoked (members : list (string * Runner))
| ExecutorCleanedUp.

Record St : Type := mkSt { heap : list Obj; trace : list Event }.

Definition M (A : Type) : Type := St -> Res A * St.

Definition ret {A} (a : A) : M A := fun s => (Ret a, s).

Definition bind {A B} (m : M A) (k : A -> M B) : M B :=
  fun s =>
    match m s with
    | (Ret a, s') => k a s'
    | (Panic v, s') => (Panic v, s')
    | (Exit c, s') => (Exit c, s')
    end.

Declare Scope startup_scope.
Delimit Scope startup_scope with startup.
Notation "x <- c ;; k" := (bind c (fun x => k))
  (at level 100, c at next level, k at level 200, right associativity) : startup_scope.
Notation "c ;;; k" := (bind c (fun _ => k))
  (at level 100, k at level 200, right associativity) : startup_scope.
Local Open Scope startup_scope.

Definition panic {A} (v : string) : M A := fun s => (Panic v, s).
Definition osExit {A} (code : Z) : M A := fun s => (Exit code, s).

Definition emit (e : Event) : M unit :=
  fun s => (Ret tt, mkSt (heap s) (trace s ++ [e])).

(** Constructing an object: it is appended to the heap and its position is
    its reference. *)
Definition new (o : Obj) : M ref :=
  fun s => (Ret (List.length (heap s)), mkSt (heap s ++ [o]) (trace s)).

Definition log (lvl : Level) (action : string) : M unit := emit (Logged lvl action).

(** lager's [logger.Fatal]: the line is logged, then the logger panics with
    the error it was given.  The embedding does not carry that error: the
    string of the [Panic] raised here is the action of the line, a label of
    the place that panicked, not the value of the Go panic. *)
Definition logFatal {A} (action : string) : M A :=
  log FATAL action ;;; panic action.

(** [defer f()] around the rest of a function: [f] runs when the rest
    returns or panics, not when it leaves through [os.Exit]. *)
Definition defer {A} (deferred : M unit) (rest : M A) : M A :=
  fun s =>
    match rest s with
    | (Ret a, s') => (match deferred s' with (_, s'') => (Ret a, s'') end)
    | (Panic v, s') => (match deferred s' with (_, s'') => (Panic v, s'') end)
    | (Exit c, s') => (Exit c, s')
    end.

(** Indexing a slice: out of range is a run-time panic. *)
Definition index {A} (l : list A) (i : nat) : M A :=
  match l !! i with
  | Some x => ret x
  | None => panic "runtime error: index out of range"
  end.

(** ** Configuration and environment *)

(** The part of [executor/initializer]'s configuration that [main] reads. *)
Record ExecutorConfig : Type := mkExecutorConfig {
  EnvoyConfigReloadDuration : Z
}.

(** The fields of [config.RepConfig] that [main] reads and that matter for
    the wiring.  [PreloadedRootFS.StackPathMap()] and
    [PreloadedRootFS.Names()] are methods of the configuration value; their
    results are carried as fields. *)
Record RepConfig : Type := mkRepConfig {
  CellID : string;
  Zone : string;
  ExecutorConfigOf : ExecutorConfig;
  PreloadedRootFS_StackPathMap : gmap string string;
  PreloadedRootFS_Names : list string;
  SidecarRootFSPath : string;
  ExtraRootfsDir : string;
  ListenAddr : string;
  ListenAddrSecurable : string;
  AdvertiseDomain : string;
  CertFile : string;
  KeyFile : string;
  CaCertFile : string;
  DebugAddress : string;
  UseV2API : bool
}.

Definition withZone (c : RepConfig) (z : string) : RepConfig :=
  mkRepConfig (CellID c) z (ExecutorConfigOf c) (PreloadedRootFS_StackPathMap c)
    (PreloadedRootFS_Names c) (SidecarRootFSPath c) (ExtraRootfsDir c)
    (ListenAddr c) (ListenAddrSecurable c) (AdvertiseDomain c) (CertFile c)
    (KeyFile c) (CaCertFile c) (DebugAddress c) (UseV2API c).

(** An IP address is a byte slice of length 4 or 16. *)
Definition IP : Type := list N.

Record Block : Type := mkBlock { Bytes : list ascii }.
Record Certificate : Type := mkCertificate { IPAddresses : list IP }.

(** What [verifyCertificate] calls outside the program.  [pem_Decode]
    answers [None] when no PEM block is found and [Some (b, n)] when block
    [b] is found and the rest is the input without its first [S n] bytes
    ([pem.Decode]'s rest is a proper suffix of its input).
    [parseCertificate] is [crypto/x509]'s parser of one certificate at the
    front of its input; [n] says that the certificate's raw encoding takes
    [S n] bytes. *)
Record CertLib : Type := mkCertLib {
  os_ReadFile : string -> list ascii + error;
  strings_TrimSpace : string -> string;
  pem_Decode : list ascii -> option (Block * nat);
  parseCertificate : list ascii -> (Certificate * nat) + error
}.

(** The tree that [filepath.WalkDir] sees under its root.  Every node
    carries the path that the walk hands to its callback; a directory
    carries what [os.ReadDir] answers for it: an optional error and the
    entries read (sorted by name, possibly partial when there is an
    error). *)
#[warnings="-register-all"]
Inductive DirEntry : Type :=
| File (path : string)
| Dir (path : string) (readErr : option error) (entries : list DirEntry).

(** Induction on a tree together with the entries of its directories. *)
Section DirEntryInduction.
Variable P : DirEntry -> Prop.
Hypothesis HFile : forall path, P (File path).
Hypothesis HDir : forall path readErr entries,
  Forall P entries -> P (Dir path readErr entries).

Fixpoint DirEntry_nested_ind (d : DirEntry) : P d :=
  match d with
  | File path => HFile path
  | Dir path readErr entries =>
      HDir path readErr entries
        ((fix all (l : list DirEntry) : Forall P l :=
            match l with
            | [] => ListDef.Forall_nil P
            | d1 :: rest =>
                ListDef.Forall_cons P d1 rest (DirEntry_nested_ind d1) (all rest)
            end) entries)
  end.

End DirEntryInduction.

(** Answers of everything [main] calls outside the program; the flags are
    the values that [flag.Parse()] leaves in them. *)
Record Env : Type := mkEnv {
  flag_config : string;
  flag_zone : string;
  config_NewRepConfig : string -> RepConfig + error;
  ExecutorConfig_Validate : ExecutorConfig -> bool;
  loggingclient_NewIngressClient : option error;
  mapRangeStart : nat;
  os_Lstat : string -> DirEntry + error;
  executorinit_Initialize : list string + error;
  bbs_NewClientWithConfig : option error;
  localip_LocalIP : string + error;
  locket_NewClient : option error;
  uuid_NewV4 : option error;
  executor_TotalResources : option error;
  json_Marshal : option error;
  rata_NewRouter : bool -> option error;
  certLib : CertLib;
  tlsconfig_Build : bool -> option error;
  memberExit : string -> option (option error)
}.

Definition errorString (e : error) : string :=
  match e with
  | SkipDir => "skip this directory"
  | SkipAll => "skip everything and stop the walk"
  | Err msg => msg
  end.

(** ** The helpers of [main.go] *)

(** [repHost]: underscores of the cell id become dashes. *)
Definition repHost (cellID : string) : string :=
  ReplaceByte cellID "_"%char "-"%char.

(** [repURL]: the port is element 1 of the securable listen address split
    on [":"]. *)
Definition repURL (config : RepConfig) : M string :=
  port <- index (Split (ListenAddrSecurable config) ":"%char) 1 ;;
  ret ("https://" +:+ repHost (CellID config) +:+ "." +:+ AdvertiseDomain config
         +:+ ":" +:+ port).

(** [repAddress]: the local IP is fetched first (fatal on failure), then
    the port is element 1 of the listen address split on [":"]. *)
Definition repAddress (E : Env) (config : RepConfig) : M string :=
  ip <- match localip_LocalIP E with
        | inr _ => logFatal "failed-to-fetch-ip"
        | inl ip => ret ip
        end ;;
  let listenAddress := ListenAddr config in
  port <- index (Split listenAddress ":"%char) 1 ;;
  ret ("http://" +:+ ip +:+ ":" +:+ port).

(** [initializeMetron]. *)
Definition initializeMetron (E : Env) (repConfig : RepConfig) : M (ref + error) :=
  match loggingclient_NewIngressClient E with
  | Some err => ret (inr err)
  | None =>
      client <- new MetronClient ;;
      (if UseV2API repConfig then emit EmitterStarted else ret tt) ;;;
      ret (inl client)
  end.

(** ** [verifyCertificate] *)

Module Net.

(** [net.ParseIP("127.0.0.1")]: the 16-byte form of the IPv4 loopback
    address. *)
Definition v4InV6Prefix : list N := [0; 0; 0; 0; 0; 0; 0; 0; 0; 0; 255; 255]%N.
Definition loopback : IP := v4InV6Prefix ++ [127; 0; 0; 1]%N.

Definition bytesEqual (a b : list N) : bool := bool_decide (a = b).

(** [net.IP.Equal]: equal slices, or a 4-byte address against its 16-byte
    IPv4-in-IPv6 form. *)
Definition Equal (ip x : IP) : bool :=
  if (List.length ip =? List.length x)%nat then bytesEqual ip x
  else if (List.length ip =? 4)%nat && (List.length x =? 16)%nat
       then bytesEqual (take 12 x) v4InV6Prefix && bytesEqual ip (drop 12 x)
  else if (List.length ip =? 16)%nat && (List.length x =? 4)%nat
       then bytesEqual (take 12 ip) v4InV6Prefix && bytesEqual (drop 12 ip) x
  else false.

End Net.

Section VerifyCertificate.
Variable L : CertLib.

(** The decoding loop: decode one block, fail when there is none, append
    its bytes, stop when nothing is left.  The outer [option] is [None] only
    when the fuel runs out, which [decodeBlocks_fuel] shows impossible for
    the fuel that [verifyCertificate] gives. *)
Fixpoint decodeBlocks (fuel : nat) (certBytes blocks : list ascii)
  : option (option (list ascii)) :=
  match fuel with
  | O => None
  | S fuel' =>
      match pem_Decode L certBytes with
      | None => Some None
      | Some (block, n) =>
          let certBytes' := drop (S n) certBytes in
          let blocks' := blocks ++ Bytes block in
          match certBytes' with
          | [] => Some (Some blocks')
          | _ => decodeBlocks fuel' certBytes' blocks'
          end
      end
  end.

(** [x509.ParseCertificates]: parse one certificate after the other until
    the input is used up; the first failure fails the whole call; an empty
    input gives an empty slice and no error. *)
Fixpoint parseCertificatesLoop (fuel : nat) (der : list ascii) (certs : list Certificate)
  : option (list Certificate + error) :=
  match der with
  | [] => Some (inl certs)
  | _ =>
      match fuel with
      | O => None
      | S fuel' =>
          match parseCertificate L der with
          | inr err => Some (inr err)
          | inl (cert, n) => parseCertificatesLoop fuel' (drop (S n) der) (certs ++ [cert])
          end
      end
  end.

Definition ParseCertificates (der : list ascii) : option (list Certificate + error) :=
  parseCertificatesLoop (List.length der) der [].

Definition hasLoopback (cert : Certificate) : bool :=
  existsb (fun ip => Net.Equal ip Net.loopback) (IPAddresses cert).

(** [verifyCertificate]: the returned value is the Go [error] ([None] is
    [nil]).  The first action records the call in the trace. *)
Definition verifyCertificate (serverCertFile : string) : M (option error) :=
  emit (CertificateChecked serverCertFile) ;;;
  match os_ReadFile L serverCertFile with
  | inr err => ret (Some err)
  | inl certBytes =>
      let certBytes := bytes (strings_TrimSpace L (of_bytes certBytes)) in
      match decodeBlocks (S (List.length certBytes)) certBytes [] with
      | None => panic "unreachable"
      | Some None => ret (Some (Err "failed parsing cert"))
      | Some (Some blocks) =>
          match ParseCertificates blocks with
          | None => panic "unreachable"
          | Some (inr err) =>
              ret (Some (Err ("failed parsing cert: " +:+ errorString err)))
          | Some (inl certs) =>
              cert0 <- index certs 0 ;;
              if hasLoopback cert0 then ret None
              else ret (Some (Err
                "invalid SAN metadata. certificate needs to contain 127.0.0.1 for IP SAN metadata."))
          end
      end
  end.

End VerifyCertificate.

(** [DecodesTo L data bs]: the decoding loop takes the blocks [bs], one
    after the other, from [data] and uses [data] up.  A file "consists
    solely of PEM blocks" when its trimmed content decodes to some [bs]. *)
Inductive DecodesTo (L : CertLib) : list ascii -> list Block -> Prop :=
| decodes_last data block n :
    pem_Decode L data = Some (block, n) ->
    drop (S n) data = [] ->
    DecodesTo L data [block]
| decodes_more data block n blocks :
    pem_Decode L data = Some (block, n) ->
    drop (S n) data <> [] ->
    DecodesTo L (drop (S n) data) blocks ->
    DecodesTo L data (block :: blocks).

(** The bytes handed to [x509.ParseCertificates]. *)
Definition bodies (blocks : list Block) : list ascii :=
  List.concat (map Bytes blocks).

(** The content of the certificate file as the decoding loop sees it. *)
Definition trimmed (L : CertLib) (certBytes : list ascii) : list ascii :=
  bytes (strings_TrimSpace L (of_bytes certBytes)).

Definition outOfRange : string := "runtime error: index out of range".
Definition invalidSAN : error :=
  Err "invalid SAN metadata. certificate needs to contain 127.0.0.1 for IP SAN metadata.".

(** ** The walk over the extra root file systems *)

Section WalkDir.
Context {S : Type}.
(** The callback: path, the error the walk met at this path if any, and the
    state the closure captures; it answers the new state and its error. *)
Variable fn : string -> option error -> S -> S * option error.

Definition isSkipDir (e : error) : bool :=
  match e with SkipDir => true | _ => false end.

(** [filepath.walkDir]. *)
Fixpoint walkDir (d : DirEntry) (s : S) : S * option error :=
  match d with
  | File path => fn path None s
  | Dir path readErr entries =>
      match fn path None s with
      | (s1, Some err) => (s1, if isSkipDir err then None else Some err)
      | (s1, None) =>
          let visit :=
            fix visit (dirs : list DirEntry) (s : S) : S * option error :=
              match dirs with
              | [] => (s, None)
              | d1 :: rest =>
                  match walkDir d1 s with
                  | (s', None) => visit rest s'
                  | (s', Some err) =>
                      if isSkipDir err then (s', None) else (s', Some err)
                  end
              end in
          match readErr with
          | Some rerr =>
              match fn path (Some rerr) s1 with
              | (s2, Some err) => (s2, if isSkipDir err then None else Some err)
              | (s2, None) => visit entries s2
              end
          | None => visit entries s1
          end
      end
  end.

(** [filepath.WalkDir]: [os.Lstat] on the root; on failure the callback is
    told, otherwise the tree is walked; the two sentinels are not reported
    as errors. *)
Definition WalkDir (lstat : string -> DirEntry + error) (root : string) (s : S)
  : S * option error :=
  let '(s', err) :=
    match lstat root with
    | inr err => fn root (Some err) s
    | inl d => walkDir d s
    end in
  match err with
  | Some SkipDir | Some SkipAll => (s', None)
  | _ => (s', err)
  end.

End WalkDir.

(** The callback that [main] passes to the walk; the state it captures is
    [rootFSMap]. *)
Definition extraRootfsFn (path : string) (err : option error)
    (rootFSMap : gmap string string) : gmap string string * option error :=
  match err with
  | Some e => (rootFSMap, Some e)
  | None =>
      let ext := Ext path in
      if EqualFold ext ".tar"
      then let key := TrimSuffix (Base path) ext in
           (<[key := path]> rootFSMap, None)
      else (rootFSMap, None)
  end.

(** ** Parts of the repository and of its libraries that [main] calls *)

(** Modelled from the spec: [rep.NewRoutes] (package [rep], not part of the
    sources at hand).  The spec's auction surface is State, Perform,
    ContainerMetrics, Reset, UpdateLRPInstance, StopLRPInstance and
    CancelTask, "the last four reachable only on the network-accessible
    listener". *)
Definition networkOnlyRoutes : list Route :=
  [ResetRoute; UpdateLRPInstanceRoute; StopLRPInstanceRoute; CancelTaskRoute].

Definition NewRoutes (networkAccessible : bool) : list Route :=
  [StateRoute; PerformRoute; ContainerMetricsRoute]
    ++ (if networkAccessible then networkOnlyRoutes else []).

(** Modelled from the spec: the ordered group of [ifrit/grouper] behind
    [monitor.Wait()] ("explicit task supervisor starting components in
    dependency order with ordered shutdown on first failure/signal").
    [exitOf name] is [None] when the member never ran and [Some r] when it
    ran and ended with [r]; the group reports a failure as soon as one
    member that ran ended with an error. *)
Definition memberFailure (exitOf : string -> option (option error))
    (member : string * Runner) : option error :=
  match exitOf member.1 with
  | Some (Some err) => Some err
  | _ => None
  end.

Fixpoint groupWait (exitOf : string -> option (option error))
    (members : list (string * Runner)) : option error :=
  match members with
  | [] => None
  | m :: rest =>
      match memberFailure exitOf m with
      | Some err => Some err
      | None => groupWait exitOf rest
      end
  end.

(** The first value of [for _, v := range m]: Go leaves the order of a map
    range open, the environment picks where it starts. *)
Definition rangeFirst (start : nat) (m : gmap string string) : option string :=
  let l := map_to_list m in
  snd <$> l !! (start mod List.length l)%nat.

(** ** [main] and its initializers *)

Definition fatalIf (err : option error) (action : string) : M unit :=
  match err with
  | Some _ => logFatal action
  | None => ret tt
  end.

(** [initializeCellPresence]. *)
Definition initializeCellPresence (E : Env) (address : string) (executorClient : ref)
    (repConfig : RepConfig) (preloadedRootFSes : list string) (repUrl : string) : M ref :=
  fatalIf (locket_NewClient E) "failed-to-construct-locket-client" ;;;
  fatalIf (uuid_NewV4 E) "failed-to-generate-guid" ;;;
  fatalIf (executor_TotalResources E) "failed-to-get-total-resources" ;;;
  fatalIf (json_Marshal E) "failed-to-encode-cell-presence" ;;;
  log DEBUG "presence-payload" ;;;
  new (PresenceRunner (CellID repConfig) address repUrl preloadedRootFSes).

(** [startTLSServer]: the runner is only built here; it listens and serves
    once the group runs it. *)
Definition startTLSServer (addr : string) (routes : list Route) (handlers : ref) : M ref :=
  new (TLSServer addr routes handlers).

(** [initializeServer]. *)
Definition initializeServer (E : Env) (auctionCellRep executorClient : ref)
    (evacuatable : Cap) (requestMetrics : ref) (repConfig : RepConfig)
    (networkAccessible : bool) : M ref :=
  handlers <- new (Handlers auctionCellRep executorClient evacuatable requestMetrics
                     networkAccessible) ;;
  let routes := NewRoutes networkAccessible in
  fatalIf (rata_NewRouter E networkAccessible) "failed-to-construct-router" ;;;
  let listenAddress :=
    if networkAccessible then ListenAddrSecurable repConfig else ListenAddr repConfig in
  (if negb networkAccessible
   then err <- verifyCertificate (certLib E) (CertFile repConfig) ;;
        fatalIf err "tls-configuration-failed"
   else ret tt) ;;;
  fatalIf (tlsconfig_Build E networkAccessible) "tls-configuration-failed" ;;;
  startTLSServer listenAddress routes handlers.

(** [initializeBBSClient]. *)
Definition initializeBBSClient (E : Env) : M ref :=
  fatalIf (bbs_NewClientWithConfig E) "failed-to-configure-secure-BBS-client" ;;;
  new BBSClient.

(** The request types registered for request metrics. *)
Definition requestTypes : list string :=
  ["State"; "ContainerMetrics"; "Perform"; "Reset"; "UpdateLRPInstance";
   "StopLRPInstance"; "CancelTask"].

(** The part of [main] that follows [defer executorClient.Cleanup(logger)]. *)
Definition mainAfterExecutor (E : Env) (repConfig : RepConfig)
    (rootFSMap : gmap string string) (metronClient executorClient
    containerMetricsProvider : ref) (executorMembers : list string) : M unit :=
  ctx <- new EvacuationContext ;;
  let evacuatable := mkCap ctx Evacuatable in
  let evacuationReporter := mkCap ctx EvacuationReporter in
  let evacuationNotifier := mkCap ctx EvacuationNotifier in
  queue <- new (SlidingQueue 1) ;;
  evacuator <- new (Evacuator executorClient evacuationNotifier (CellID repConfig)) ;;
  bbsClient <- initializeBBSClient E ;;
  url <- repURL repConfig ;;
  address <- repAddress E repConfig ;;
  cellPresence <- initializeCellPresence E address executorClient repConfig
                    (PreloadedRootFS_Names repConfig) url ;;
  batchContainerAllocator <- new (ContainerAllocator rootFSMap executorClient) ;;
  auctionCellRep <- new (AuctionCellRep (CellID repConfig) url rootFSMap
                           containerMetricsProvider executorClient evacuationReporter
                           batchContainerAllocator) ;;
  requestMetrics <- new (RequestMetricsNotifier metronClient requestTypes) ;;
  httpServer <- initializeServer E auctionCellRep executorClient evacuatable
                  requestMetrics repConfig false ;;
  httpsServer <- initializeServer E auctionCellRep executorClient evacuatable
                   requestMetrics repConfig true ;;
  opGenerator <- new (OperationGenerator (CellID repConfig) (Zone repConfig) rootFSMap
                        bbsClient executorClient metronClient evacuationReporter) ;;
  cleanup <- new (EvacuationCleanup (CellID repConfig) bbsClient executorClient
                    metronClient) ;;
  bulker <- new (Bulker evacuationNotifier opGenerator queue metronClient) ;;
  eventConsumer <- new (EventConsumer opGenerator queue) ;;
  let members :=
    [("presence", RunnerOf cellPresence);
     ("http_server", RunnerOf httpServer);
     ("https_server", RunnerOf httpsServer);
     ("evacuation-cleanup", RunnerOf cleanup);
     ("bulker", RunnerOf bulker);
     ("event-consumer", RunnerOf eventConsumer);
     ("evacuator", RunnerOf evacuator);
     ("request-metrics-notifier", RunnerOf requestMetrics)] in
  let members := map (fun n => (n, ExecutorRunner n)) executorMembers ++ members in
  members <- (if negb (String.eqb (DebugAddress repConfig) "")
              then debug <- new (DebugServer (DebugAddress repConfig)) ;;
                   ret ([("debug-server", RunnerOf debug)] ++ members)
              else ret members) ;;
  emit (GroupInvoked members) ;;;
  log INFO "started" ;;;
  match groupWait (memberExit E) members with
  | Some _ =>
      log ERROR "exited-with-failure" ;;;
      osExit 1
  | None => log INFO "exited"
  end.

(** The part of [main] between the zone override and the [defer]. *)
Definition mainConfigured (E : Env) (repConfig : RepConfig) : M unit :=
  (if negb (ExecutorConfig_Validate E (ExecutorConfigOf repConfig))
   then logFatal ""
   else ret tt) ;;;
  (if String.eqb (CellID repConfig) ""
   then log ERROR "invalid-cell-id" ;;; osExit 1
   else ret tt) ;;;
  metron <- initializeMetron E repConfig ;;
  metronClient <- match metron with
                  | inr _ => log ERROR "failed-to-initialize-metron-client" ;;; osExit 1
                  | inl client => ret client
                  end ;;
  let rootFSMap := PreloadedRootFS_StackPathMap repConfig in
  let sidecarRootFSPath := SidecarRootFSPath repConfig in
  let sidecarRootFSPath :=
    if String.eqb sidecarRootFSPath ""
    then default sidecarRootFSPath (rangeFirst (mapRangeStart E) rootFSMap)
    else sidecarRootFSPath in
  let walked := WalkDir extraRootfsFn (os_Lstat E) (ExtraRootfsDir repConfig) rootFSMap in
  let rootFSMap := walked.1 in
  let walkDirErr := walked.2 in
  (match walkDirErr with
   | Some _ => log DEBUG "missing-extra-rootfs"
   | None => ret tt
   end) ;;;
  executorMembers <- match executorinit_Initialize E with
                     | inr _ => log ERROR "failed-to-initialize-executor" ;;; osExit 1
                     | inl members => ret members
                     end ;;
  executorClient <- new (ExecutorClient (CellID repConfig) (Zone repConfig) rootFSMap
                           sidecarRootFSPath metronClient) ;;
  containerMetricsProvider <- new ContainerMetricsProvider ;;
  defer (emit ExecutorCleanedUp)
    (mainAfterExecutor E repConfig rootFSMap metronClient executorClient
       containerMetricsProvider executorMembers).

(** [main]: the flags are parsed, the configuration file is read and the
    zone flag, when given, replaces the configured zone. *)
Definition main (E : Env) : M unit :=
  repConfig <- match config_NewRepConfig E (flag_config E) with
               | inr err => panic (errorString err)
               | inl c => ret c
               end ;;
  let repConfig :=
    if negb (String.eqb (flag_zone E) "") then withZone repConfig (flag_zone E)
    else repConfig in
  mainConfigured E repConfig.

(** A run of the process starts with nothing built and nothing observed. *)
Definition st0 : St := mkSt [] [].
Definition run (E : Env) : Res unit * St := main E st0.

(** ** Observations on a run *)

(** What a call of [verifyCertificate] answers; the store plays no part
    in it. *)
Definition verifyOutcome (L : CertLib) (file : string) : Res (option error) :=
  (verifyCertificate L file st0).1.


(** The members with which the group was started, if it was: from that
    event on the servers of the group accept requests. *)
Fixpoint groupOf (t : list Event) : option (list (string * Runner)) :=
  match t with
  | [] => None
  | GroupInvoked ms :: _ => Some ms
  | _ :: t' => groupOf t'
  end.

Definition serving (st : St) : bool :=
  match groupOf (trace st) with Some _ => true | None => false end.

Definition isCertificateChecked (e : Event) : bool :=
  match e with CertificateChecked _ => true | _ => false end.

(** The certificate checks of a trace, in order. *)
Definition certificateChecks (t : list Event) : list Event :=
  List.filter isCertificateChecked t.

(** The part of a trace that follows the start of the group. *)
Fixpoint afterGroup (t : list Event) : list Event :=
  match t with
  | [] => []
  | GroupInvoked _ :: t' => t'
  | _ :: t' => afterGroup t'
  end.

Definition terminated {A} (r : Res A) : bool :=
  match r with Ret _ => false | _ => true end.

Definition isPanic {A} (r : Res A) : bool :=
  match r with Panic _ => true | _ => false end.

(** The configuration [main] works with: the parsed file with the zone
    flag applied. *)
Definition configOf (E : Env) : option RepConfig :=
  match config_NewRepConfig E (flag_config E) with
  | inr _ => None
  | inl c =>
      Some (if negb (String.eqb (flag_zone E) "") then withZone c (flag_zone E) else c)
  end.






(** The auction surface as the spec lists it. *)
Definition auctionSurface : list string :=
  ["State"; "Perform"; "ContainerMetrics"; "Reset"; "UpdateLRPInstance";
   "StopLRPInstance"; "CancelTask"].

Definition hasColon (addr : string) : bool := ContainsByte addr ":"%char.

(** The startup steps that precede the call of [repURL] all succeed. *)
Definition reachesRepURL (E : Env) (cfg : RepConfig) : Prop :=
  configOf E = Some cfg /\
  ExecutorConfig_Validate E (ExecutorConfigOf cfg) = true /\
  CellID cfg <> ""%string /\
  loggingclient_NewIngressClient E = None /\
  (exists ms, executorinit_Initialize E = inl ms) /\
  bbs_NewClientWithConfig E = None.

(** The paths of a tree, in the order of the walk, and the paths of its
    files. *)
Fixpoint pathsOf (d : DirEntry) : list string :=
  match d with
  | File path => [path]
  | Dir path _ entries => path :: flat_map pathsOf entries
  end.

Fixpoint filesOf (d : DirEntry) : list string :=
  match d with
  | File path => [path]
  | Dir _ _ entries => flat_map filesOf entries
  end.

(** The paths that the walk of a tree hands to [extraRootfsFn] without an
    error, in order, and the error with which that walk ends.  The walk stops
    at the first directory that cannot be read. *)
Fixpoint visited (d : DirEntry) : list string * option error :=
  match d with
  | File path => ([path], None)
  | Dir path (Some err) _ => ([path], if isSkipDir err then None else Some err)
  | Dir path None entries =>
      let visitAll :=
        fix visitAll (dirs : list DirEntry) : list string * option error :=
          match dirs with
          | [] => ([], None)
          | d1 :: rest =>
              match visited d1 with
              | (ps, Some err) => (ps, if isSkipDir err then None else Some err)
              | (ps, None) => let '(qs, err) := visitAll rest in (ps ++ qs, err)
              end
          end in
      let '(ps, err) := visitAll entries in (path :: ps, err)
  end.

(** The same for the whole walk: nothing is visited when the root cannot be
    examined. *)
Definition visitedFrom (lstat : DirEntry + error) : list string :=
  match lstat with
  | inl d => (visited d).1
  | inr _ => []
  end.

Definition isTar (path : string) : bool := EqualFold (Ext path) ".tar".
Definition stackOf (path : string) : string := TrimSuffix (Base path) (Ext path).

(** What one visit does to the map. *)
Definition addRootfs (m : gmap string string) (path : string) : gmap string string :=
  if isTar path then <[stackOf path := path]> m else m.

(** The map handed to the executor, to the allocator, to the auction
    representative and to the operation generator. *)
Definition rootFSMapOf (E : Env) (cfg : RepConfig) : gmap string string :=
  (WalkDir extraRootfsFn (os_Lstat E) (ExtraRootfsDir cfg)
     (PreloadedRootFS_StackPathMap cfg)).1.

Definition readErrFree : DirEntry -> Prop :=
  fix go (d : DirEntry) : Prop :=
    match d with
    | File _ => True
    | Dir _ readErr entries =>
        readErr = None /\
        (fix all (l : list DirEntry) : Prop :=
           match l with [] => True | d1 :: r => go d1 /\ all r end) entries
    end.

(** The startup steps that precede the walk all succeed. *)
Definition reachesWalk (E : Env) (cfg : RepConfig) : Prop :=
  ExecutorConfig_Validate E (ExecutorConfigOf cfg) = true /\
  CellID cfg <> ""%string /\
  loggingclient_NewIngressClient E = None.

(** Every startup step succeeds; nothing is asked of the walk. *)
Definition healthy (E : Env) (cfg : RepConfig) : Prop :=
  reachesRepURL E cfg /\
  hasColon (ListenAddrSecurable cfg) = true /\ hasColon (ListenAddr cfg) = true /\
  (exists ip, localip_LocalIP E = inl ip) /\
  locket_NewClient E = None /\ uuid_NewV4 E = None /\
  executor_TotalResources E = None /\ json_Marshal E = None /\
  rata_NewRouter E false = None /\ rata_NewRouter E true = None /\
  verifyOutcome (certLib E) (CertFile cfg) = Ret None /\
  tlsconfig_Build E false = None /\ tlsconfig_Build E true = None.

(** The root-filesystem map that an object was given, if it takes one. *)
Definition rootFSMapGiven (o : Obj) : option (gmap string string) :=
  match o with
  | ExecutorClient _ _ m _ _ => Some m
  | ContainerAllocator m _ => Some m
  | AuctionCellRep _ _ m _ _ _ _ => Some m
  | OperationGenerator _ _ m _ _ _ _ => Some m
  | _ => None
  end.

Definition isOperationGenerator (o : option Obj) : bool :=
  match o with Some (OperationGenerator _ _ _ _ _ _ _) => true | _ => false end.

Definition isSlidingQueue (o : option Obj) : bool :=
  match o with Some (SlidingQueue _) => true | _ => false end.

(** *** The wiring diagram

    What [main] builds when no step fails, object by object, in the order
    of construction (the position of an object is its reference).
    [run_heap_prefix] shows that the heap of every run is a prefix of this
    list. *)

Definition portOf (addr : string) : string :=
  default ""%string (Split addr ":"%char !! 1%nat).

Definition urlOf (cfg : RepConfig) : string :=
  "https://" +:+ repHost (CellID cfg) +:+ "." +:+ AdvertiseDomain cfg
    +:+ ":" +:+ portOf (ListenAddrSecurable cfg).

Definition addressOf (E : Env) (cfg : RepConfig) : string :=
  "http://" +:+ (match localip_LocalIP E with inl ip => ip | inr _ => "" end)
    +:+ ":" +:+ portOf (ListenAddr cfg).

Definition sidecarOf (E : Env) (cfg : RepConfig) : string :=
  if String.eqb (SidecarRootFSPath cfg) ""
  then default (SidecarRootFSPath cfg)
         (rangeFirst (mapRangeStart E) (PreloadedRootFS_StackPathMap cfg))
  else SidecarRootFSPath cfg.

Definition wiring (E : Env) (cfg : RepConfig) : list Obj :=
  let rootFSMap := rootFSMapOf E cfg in
  let ctx := 3%nat in
  [ (* 0 *) MetronClient;
    (* 1 *) ExecutorClient (CellID cfg) (Zone cfg) rootFSMap (sidecarOf E cfg) 0;
    (* 2 *) ContainerMetricsProvider;
    (* 3 *) EvacuationContext;
    (* 4 *) SlidingQueue 1;
    (* 5 *) Evacuator 1 (mkCap ctx EvacuationNotifier) (CellID cfg);
    (* 6 *) BBSClient;
    (* 7 *) PresenceRunner (CellID cfg) (addressOf E cfg) (urlOf cfg)
              (PreloadedRootFS_Names cfg);
    (* 8 *) ContainerAllocator rootFSMap 1;
    (* 9 *) AuctionCellRep (CellID cfg) (urlOf cfg) rootFSMap 2 1
              (mkCap ctx EvacuationReporter) 8;
    (* 10 *) RequestMetricsNotifier 0 requestTypes;
    (* 11 *) Handlers 9 1 (mkCap ctx Evacuatable) 10 false;
    (* 12 *) TLSServer (ListenAddr cfg) (NewRoutes false) 11;
    (* 13 *) Handlers 9 1 (mkCap ctx Evacuatable) 10 true;
    (* 14 *) TLSServer (ListenAddrSecurable cfg) (NewRoutes true) 13;
    (* 15 *) OperationGenerator (CellID cfg) (Zone cfg) rootFSMap 6 1 0
               (mkCap ctx EvacuationReporter);
    (* 16 *) EvacuationCleanup (CellID cfg) 6 1 0;
    (* 17 *) Bulker (mkCap ctx EvacuationNotifier) 15 4 0;
    (* 18 *) EventConsumer 15 4;
    (* 19 *) DebugServer (DebugAddress cfg) ].

(** The members of the group when the debug server is not configured; it
    comes first when it is. *)
Definition ownMembers : list (string * Runner) :=
  [("presence", RunnerOf 7); ("http_server", RunnerOf 12);
   ("https_server", RunnerOf 14); ("evacuation-cleanup", RunnerOf 16);
   ("bulker", RunnerOf 17); ("event-consumer", RunnerOf 18);
   ("evacuator", RunnerOf 5); ("request-metrics-notifier", RunnerOf 10)]%string.

Definition membersOf (executorMembers : list string) : list (string * Runner) :=
  map (fun n => (n, ExecutorRunner n)) executorMembers ++ ownMembers.

Definition debugConfigured (cfg : RepConfig) : bool :=
  negb (String.eqb (DebugAddress cfg) "").

Definition groupMembers (cfg : RepConfig) (executorMembers : list string)
  : list (string * Runner) :=
  if debugConfigured cfg
  then [("debug-server", RunnerOf 19)] ++ membersOf executorMembers
  else membersOf executorMembers.

(** What has been built when the group starts. *)
Definition built (E : Env) (cfg : RepConfig) : list Obj :=
  take (if debugConfigured cfg then 20 else 19)%nat (wiring E cfg).

(** How the process ends once the group has been started with [ms]. *)
Definition groupOutcome (E : Env) (ms : list (string * Runner)) : Res unit :=
  match groupWait (memberExit E) ms with
  | Some _ => Exit 1
  | None => Ret tt
  end.

(** ** The operation queue *)

Module OperationQ.

(** Modelled from the spec: the sliding operation queue behind
    [operationq.NewSlidingQueue] (package [operationq], not part of the
    sources at hand), after the spec's description of [Push]: "if no
    operation for key is running or queued, op starts as soon as a worker is
    free.  If one is already queued (not yet started) for key, it is evicted
    and replaced.  If one is currently executing for key, op becomes the
    single pending successor and runs after completion", with "a mapping
    from key to {in-flight, pending-successor}" and "a capped worker pool".
    The depth given to the constructor bounds the pending operations of a
    key; a push beyond it slides the oldest one out. *)
Record Operation : Type := mkOperation { opKey : string; opId : nat }.

Record KeyState : Type := mkKeyState {
  inFlight : option Operation;
  pending : list Operation
}.

Record Queue : Type := mkQueue {
  depth : nat;
  workers : nat;
  keys : gmap string KeyState
}.

Definition NewSlidingQueue (capacity : Z) (workers : nat) : Queue :=
  mkQueue (Z.to_nat capacity) workers ∅.

Definition stateOf (q : Queue) (key : string) : KeyState :=
  default (mkKeyState None []) (keys q !! key).

(** Keep the newest [n] operations. *)
Definition slide (n : nat) (l : list Operation) : list Operation :=
  drop (List.length l - n) l.

Definition busy (q : Queue) : nat :=
  List.length (List.filter (fun kv => bool_decide (is_Some (inFlight kv.2)))
                 (map_to_list (keys q))).

Definition Push (op : Operation) (q : Queue) : Queue :=
  let ks := stateOf q (opKey op) in
  mkQueue (depth q) (workers q)
    (<[opKey op := mkKeyState (inFlight ks) (slide (depth q) (pending ks ++ [op]))]>
       (keys q)).

(** A free worker takes the oldest pending operation of a key that has
    nothing in flight. *)
Definition Start (key : string) (q : Queue) : Queue :=
  let ks := stateOf q key in
  match inFlight ks, pending ks with
  | None, op :: rest =>
      if (busy q <? workers q)%nat
      then mkQueue (depth q) (workers q) (<[key := mkKeyState (Some op) rest]> (keys q))
      else q
  | _, _ => q
  end.

(** The operation in flight for a key completes. *)
Definition Finish (key : string) (q : Queue) : Queue :=
  let ks := stateOf q key in
  match inFlight ks with
  | Some _ => mkQueue (depth q) (workers q) (<[key := mkKeyState None (pending ks)]> (keys q))
  | None => q
  end.

Inductive Action : Type :=
| DoPush (op : Operation)
| DoStart (key : string)
| DoFinish (key : string).

Definition step (q : Queue) (a : Action) : Queue :=
  match a with
  | DoPush op => Push op q
  | DoStart key => Start key q
  | DoFinish key => Finish key q
  end.

Definition exec (q : Queue) (actions : list Action) : Queue :=
  fold_left step actions q.

(** The invariant of the queue: no key has more pending operations than the
    depth. *)
Definition bounded (q : Queue) : Prop :=
  forall key ks, keys q !! key = Some ks -> (List.length (pending ks) <= depth q)%nat.

End OperationQ.

(** ** Weakest preconditions for the startup monad *)

Definition wp {A} (m : M A) (Q : Res A -> St -> Prop) (s : St) : Prop :=
  Q (m s).1 (m s).2.

Definition wpk {A B} (k : A -> M B) (Q : Res B -> St -> Prop) (r : Res A) (s : St) : Prop :=
  match r with
  | Ret a => wp (k a) Q s
  | Panic v => Q (Panic v) s
  | Exit c => Q (Exit c) s
  end.

(** ** Sample environments *)

Module Sample.

Definition configWith (cellID listenAddr listenAddrSecurable : string) : RepConfig :=
  mkRepConfig cellID "z1" (mkExecutorConfig 0)
    {[ "cflinuxfs4" := "/var/vcap/packages/cflinuxfs4/rootfs.tar" ]}
    ["cflinuxfs4"] "" "/var/vcap/data/extra_rootfs"
    listenAddr listenAddrSecurable "cell.service.cf.internal"
    "/var/vcap/jobs/rep/config/certs/tls.crt"
    "/var/vcap/jobs/rep/config/certs/tls.key"
    "/var/vcap/jobs/rep/config/certs/tls_ca.crt" "" true.

Definition config : RepConfig := configWith "cell_z1_0" "0.0.0.0:1800" "0.0.0.0:1801".

(** A toy certificate library: every byte of the file is one PEM block;
    ['E'] is a block with an empty body, ['!'] is not PEM, any other byte
    is a block whose body is that byte.  A body byte ['L'] is a certificate
    with the IP SAN 127.0.0.1, ['M'] one with ::ffff:127.0.0.1 and 10.0.0.1,
    ['N'] one with 10.0.0.1 only; anything else does not parse. *)
Definition decode (data : list ascii) : option (Block * nat) :=
  match data with
  | [] => None
  | c :: _ =>
      if Ascii.eqb c "!"%char then None
      else if Ascii.eqb c "E"%char then Some (mkBlock [], O)
      else Some (mkBlock [c], O)
  end.

Definition parse (der : list ascii) : (Certificate * nat) + error :=
  match der with
  | c :: _ =>
      if Ascii.eqb c "L"%char then inl (mkCertificate [[127; 0; 0; 1]%N], O)
      else if Ascii.eqb c "M"%char
           then inl (mkCertificate [[10; 0; 0; 1]%N; Net.loopback], O)
      else if Ascii.eqb c "N"%char then inl (mkCertificate [[10; 0; 0; 1]%N], O)
      else inr (Err "x509: malformed certificate")
  | [] => inr (Err "x509: malformed certificate")
  end.

Definition certs (file : list ascii + error) : CertLib :=
  mkCertLib (fun _ => file) (fun s => s) decode parse.

Definition tree : DirEntry :=
  Dir "/var/vcap/data/extra_rootfs" None
    [File "/var/vcap/data/extra_rootfs/README";
     File "/var/vcap/data/extra_rootfs/jammy.TAR";
     Dir "/var/vcap/data/extra_rootfs/more" None
       [File "/var/vcap/data/extra_rootfs/more/cflinuxfs4.tar"]].

(** An environment in which every outside call succeeds but for the ones
    left open: the parsing of the configuration file, the validation of the
    executor configuration, the tree under the extra root-filesystem
    directory, the certificate file and the way the members end. *)
Definition env (parsed : RepConfig + error) (valid : bool) (lstat : DirEntry + error)
    (file : list ascii + error) (exits : string -> option (option error)) : Env :=
  mkEnv "/var/vcap/jobs/rep/config/rep.json" "" (fun _ => parsed) (fun _ => valid) None
    O (fun _ => lstat) (inl ["volman-syncer"; "depot-client"]) None (inl "10.0.16.4")
    None None None None (fun _ => None) (certs file) (fun _ => None) exits.

Definition quiet : string -> option (option error) := fun _ => Some None.

Definition good : Env := env (inl config) true (inl tree) (inl (bytes "L")) quiet.

Definition unparsed : Env :=
  env (inr (Err "invalid character")) true (inl tree) (inl (bytes "L")) quiet.

Definition invalidExecutor : Env :=
  env (inl config) false (inl tree) (inl (bytes "L")) quiet.

(** The presence runner loses its lease; every other member ends without
    an error once the group shuts down. *)
Definition presenceLost : Env :=
  env (inl config) true (inl tree) (inl (bytes "L"))
    (fun name => if String.eqb name "presence"
                 then Some (Some (Err "lost lock")) else Some None).

(** The certificate of the cell lacks the loopback address. *)
Definition wrongSAN : Env := env (inl config) true (inl tree) (inl (bytes "N")) quiet.

(** Neither listen address has a port, and the cell id is missing too. *)
Definition noPortNoCellID : Env :=
  env (inl (configWith "" "0.0.0.0" "0.0.0.0")) true (inl tree) (inl (bytes "L")) quiet.

(** The listen address has no port; everything else is in order. *)
Definition noPort : Env :=
  env (inl (configWith "cell_z1_0" "0.0.0.0" "0.0.0.0:1801")) true (inl tree)
    (inl (bytes "L")) quiet.

(** A directory that cannot be read comes before a tar file. *)
Definition unreadableTree : DirEntry :=
  Dir "/var/vcap/data/extra_rootfs" None
    [Dir "/var/vcap/data/extra_rootfs/a" (Some (Err "permission denied")) [];
     File "/var/vcap/data/extra_rootfs/b.tar"].

Definition unreadable : Env :=
  env (inl config) true (inl unreadableTree) (inl (bytes "L")) quiet.

Definition noCellID : Env :=
  env (inl (configWith "" "0.0.0.0:1800" "0.0.0.0:1801")) true (inl tree)
    (inl (bytes "L")) quiet.

End Sample.

(** ** Further observations *)

(** The bytes of [s] before its first [sep], all of [s] when it has none:
    element 0 of [strings.Split(s, sep)]. *)
Fixpoint firstField (s : string) (sep : ascii) : string :=
  match s with
  | EmptyString => EmptyString
  | String c s' => if Ascii.eqb c sep then EmptyString else String c (firstField s' sep)
  end.

(** [strings.Join(fields, sep)] for a one-byte separator. *)
Fixpoint Join (fields : list string) (sep : ascii) : string :=
  match fields with
  | [] => EmptyString
  | [f] => f
  | f :: rest => f +:+ String sep (Join rest sep)
  end.

(** [strings.Count(s, sep)] for a one-byte separator. *)
Fixpoint CountByte (s : string) (sep : ascii) : nat :=
  match s with
  | EmptyString => O
  | String c s' => (if Ascii.eqb c sep then 1 else 0) + CountByte s' sep
  end.

Definition isExit {A} (r : Res A) : bool :=
  match r with Exit _ => true | _ => false end.





(** The zone that an object was given, where the embedding records it. *)
Definition zoneGiven (o : Obj) : option string :=
  match o with
  | ExecutorClient _ zone _ _ _ => Some zone
  | OperationGenerator _ zone _ _ _ _ _ => Some zone
  | _ => None
  end.

(** The number of times an event occurs in a trace. *)
Definition occurrences (e : Event -> bool) (t : list Event) : nat :=
  List.length (List.filter e t).

Definition isExecutorCleanedUp (e : Event) : bool :=
  match e with ExecutorCleanedUp => true | _ => false end.

Definition isEmitterStarted (e : Event) : bool :=
  match e with EmitterStarted => true | _ => false end.

Definition isFatalLogged (e : Event) : bool :=
  match e with Logged FATAL _ => true | _ => false end.

(** The last event of a trace and the last line logged in it. *)
Fixpoint lastEvent (t : list Event) : option Event :=
  match t with
  | [] => None
  | [e] => Some e
  | _ :: t' => lastEvent t'
  end.

Fixpoint lastLogged (t : list Event) : option (Level * string) :=
  match t with
  | [] => None
  | e :: t' =>
      match lastLogged t' with
      | Some line => Some line
      | None => match e with Logged lvl action => Some (lvl, action) | _ => None end
      end
  end.

(** The deferred cleanup is registered once the executor client and its
    metrics provider are built, the third object of a run. *)
Definition cleanupRegistered (st : St) : bool := (3 <=? List.length (heap st))%nat.

(** The actions that [main] and its initializers log at fatal level. *)
Definition fatalActions : list string :=
  [""; "failed-to-configure-secure-BBS-client"; "failed-to-fetch-ip";
   "failed-to-construct-locket-client"; "failed-to-generate-guid";
   "failed-to-get-total-resources"; "failed-to-encode-cell-presence";
   "failed-to-construct-router"; "tls-configuration-failed"]%string.

(** What holds of the result and the final state of every run that has a
    configuration: how often and where the deferred cleanup, the exits, the
    emitter and the fatal lines occur, and what follows the start of the
    group. *)
Definition runEnding (cfg : RepConfig) (r : Res unit) (st : St) : Prop :=
  occurrences isExecutorCleanedUp (trace st)
    = (if cleanupRegistered st && negb (isExit r) then 1 else 0)%nat /\
  (occurrences isExecutorCleanedUp (trace st) = 1%nat ->
   lastEvent (trace st) = Some ExecutorCleanedUp) /\
  (forall code, r = Exit code ->
     code = 1%Z /\
     exists action,
       lastEvent (trace st) = Some (Logged ERROR action) /\
       action ∈ ["invalid-cell-id"; "failed-to-initialize-metron-client";
                 "failed-to-initialize-executor"; "exited-with-failure"]%string) /\
  occurrences isEmitterStarted (trace st)
    = (if UseV2API cfg && (1 <=? List.length (heap st))%nat then 1 else 0)%nat /\
  (occurrences isFatalLogged (trace st) <= 1)%nat /\
  (occurrences isFatalLogged (trace st) = 1%nat ->
   exists action,
     r = Panic action /\ lastLogged (trace st) = Some (FATAL, action) /\
     action ∈ fatalActions) /\
  (r = Ret tt ->
   exists ms,
     groupOf (trace st) = Some ms /\
     afterGroup (trace st)
     = [Logged INFO "started"; Logged INFO "exited"; ExecutorCleanedUp]) /\
  (forall ms, groupOf (trace st) = Some ms ->
     isPanic r = false /\
     (r = Exit 1 ->
      afterGroup (trace st)
      = [Logged INFO "started"; Logged ERROR "exited-with-failure"])).

(** The kind of runner that [main] puts behind each of its own member
    names. *)
Definition runsAs (name : string) (o : Obj) : bool :=
  match o with
  | PresenceRunner _ _ _ _ => String.eqb name "presence"
  | TLSServer _ _ _ => String.eqb name "http_server" || String.eqb name "https_server"
  | EvacuationCleanup _ _ _ _ => String.eqb name "evacuation-cleanup"
  | Bulker _ _ _ _ => String.eqb name "bulker"
  | EventConsumer _ _ => String.eqb name "event-consumer"
  | Evacuator _ _ _ => String.eqb name "evacuator"
  | RequestMetricsNotifier _ _ => String.eqb name "request-metrics-notifier"
  | DebugServer _ => String.eqb name "debug-server"
  | _ => false
  end.

(** Further sample environments: the zone flag is given; the debug server
    and the sidecar root file system are configured. *)
Module MoreSamples.

Definition zoned : Env :=
  mkEnv "/var/vcap/jobs/rep/config/rep.json" "z2" (fun _ => inl Sample.config)
    (fun _ => true) None O (fun _ => inl Sample.tree)
    (inl ["volman-syncer"; "depot-client"]) None (inl "10.0.16.4")
    None None None None (fun _ => None) (Sample.certs (inl (bytes "L"))) (fun _ => None)
    Sample.quiet.

Definition debugConfig : RepConfig :=
  mkRepConfig "cell_z1_0" "z1" (mkExecutorConfig 0)
    {[ "cflinuxfs4" := "/var/vcap/packages/cflinuxfs4/rootfs.tar" ]}
    ["cflinuxfs4"] "/var/vcap/packages/healthcheck/rootfs.tar" "/var/vcap/data/extra_rootfs"
    "0.0.0.0:1800" "0.0.0.0:1801" "cell.service.cf.internal"
    "/var/vcap/jobs/rep/config/certs/tls.crt"
    "/var/vcap/jobs/rep/config/certs/tls.key"
    "/var/vcap/jobs/rep/config/certs/tls_ca.crt" "127.0.0.1:17008" false.

Definition debugged : Env :=
  Sample.env (inl debugConfig) true (inr (Err "no such file or directory"))
    (inl (bytes "L")) Sample.quiet.

End MoreSamples.

(** * Properties *)

(** ** The models at work *)

Example Split_listen_address :
  Split "0.0.0.0:1800" ":" = ["0.0.0.0"; "1800"]%string /\
  Split "0.0.0.0" ":" = ["0.0.0.0"]%string /\
  Split "" ":" = [""]%string /\
  Split "[::]:1800" ":" = ["["; ""; "]"; "1800"]%string.
Proof. repeat split. Qed.

Example Ext_and_Base :
  Ext "/extra/jammy.TAR" = ".TAR"%string /\ Base "/extra/jammy.TAR" = "jammy.TAR"%string /\
  Ext "/extra.d/jammy" = ""%string /\ Ext "/extra/.tar" = ".tar"%string /\
  Base "" = "."%string /\ Base "///" = "/"%string /\ Base "/extra/more//" = "more"%string.
Proof. repeat split. Qed.

Example stack_names :
  isTar "/extra/jammy.TAR" = true /\ stackOf "/extra/jammy.TAR" = "jammy"%string /\
  isTar "/extra/jammy.tar.gz" = false /\ isTar "/extra/tar" = false /\
  stackOf "/extra/.tar" = ""%string.
Proof. repeat split. Qed.

Example repURL_of_sample :
  repURL Sample.config st0
  = (Ret "https://cell-z1-0.cell.service.cf.internal:1801"%string, st0).
Proof. reflexivity. Qed.

Example sample_run :
  (run Sample.good).1 = Ret tt /\
  trace (run Sample.good).2 =
    [EmitterStarted; Logged DEBUG "presence-payload";
     CertificateChecked "/var/vcap/jobs/rep/config/certs/tls.crt";
     GroupInvoked (groupMembers Sample.config ["volman-syncer"; "depot-client"]%string);
     Logged INFO "started"; Logged INFO "exited"; ExecutorCleanedUp] /\
  heap (run Sample.good).2 = built Sample.good Sample.config.
Proof. vm_compute. repeat split. Qed.

(** Two pushes for a key before the first starts leave the second one only;
    a push while the key is in flight becomes the one pending successor, and
    a further push replaces it. *)
Example sliding_queue_at_work :
  let a := OperationQ.mkOperation "lrp-1" 1 in
  let b := OperationQ.mkOperation "lrp-1" 2 in
  let c := OperationQ.mkOperation "lrp-1" 3 in
  let q0 := OperationQ.NewSlidingQueue 1 4 in
  OperationQ.stateOf (OperationQ.exec q0 [OperationQ.DoPush a; OperationQ.DoPush b]) "lrp-1"
    = OperationQ.mkKeyState None [b] /\
  OperationQ.stateOf
    (OperationQ.exec q0 [OperationQ.DoPush a; OperationQ.DoStart "lrp-1";
                         OperationQ.DoPush b; OperationQ.DoPush c;
                         OperationQ.DoStart "lrp-1"]) "lrp-1"
    = OperationQ.mkKeyState (Some a) [c] /\
  OperationQ.stateOf
    (OperationQ.exec q0 [OperationQ.DoPush a; OperationQ.DoStart "lrp-1";
                         OperationQ.DoPush b; OperationQ.DoFinish "lrp-1";
                         OperationQ.DoStart "lrp-1"]) "lrp-1"
    = OperationQ.mkKeyState (Some b) [].
Proof. vm_compute. repeat split. Qed.

(** ** Rules of the calculus *)

Lemma wp_bind {A B} (m : M A) (k : A -> M B) Q s :
  wp m (wpk k Q) s -> wp (bind m k) Q s.
Proof.
  unfold wp, wpk, bind. destruct (m s) as [[a|v|c] s']; simpl; auto.
Qed.

Lemma wp_ret {A} (a : A) Q s : Q (Ret a) s -> wp (ret a) Q s.
Proof. auto. Qed.

Lemma wp_panic {A} v (Q : Res A -> St -> Prop) s : Q (Panic v) s -> wp (panic v) Q s.
Proof. auto. Qed.

Lemma wp_osExit {A} c (Q : Res A -> St -> Prop) s : Q (Exit c) s -> wp (osExit c) Q s.
Proof. auto. Qed.

Lemma wp_emit e Q s :
  Q (Ret tt) (mkSt (heap s) (trace s ++ [e])) -> wp (emit e) Q s.
Proof. auto. Qed.

Lemma wp_new o Q s :
  Q (Ret (List.length (heap s))) (mkSt (heap s ++ [o]) (trace s)) -> wp (new o) Q s.
Proof. auto. Qed.

Lemma wp_defer {A} (d : M unit) (rest : M A) Q s :
  wp rest (fun r s' =>
    match r with
    | Ret a => wp d (fun _ s'' => Q (Ret a) s'') s'
    | Panic v => wp d (fun _ s'' => Q (Panic v) s'') s'
    | Exit c => Q (Exit c) s'
    end) s ->
  wp (defer d rest) Q s.
Proof.
  unfold wp, defer. destruct (rest s) as [[a|v|c] s']; simpl; auto;
    destruct (d s'); auto.
Qed.

(** [verifyCertificate] adds its call to the trace and touches nothing
    else. *)
Lemma verifyCertificate_run L file s :
  verifyCertificate L file s =
  (verifyOutcome L file, mkSt (heap s) (trace s ++ [CertificateChecked file])).
Proof.
  unfold verifyOutcome, verifyCertificate, bind, emit, ret, panic, index, st0.
  cbn [heap trace app fst snd].
  destruct (os_ReadFile L file) as [certBytes|err]; [|reflexivity].
  lazymatch goal with
  | |- context [decodeBlocks ?a ?b ?c ?d] =>
      destruct (decodeBlocks a b c d) as [[blocks|]|]
  end; try reflexivity.
  destruct (ParseCertificates L blocks) as [[certs|err]|]; try reflexivity.
  destruct certs as [|cert0 certs]; [reflexivity|]. simpl.
  destruct (hasLoopback cert0); reflexivity.
Qed.

(** [verifyCertificate] never leaves through [os.Exit]. *)
Lemma verifyOutcome_no_exit L file code : verifyOutcome L file <> Exit code.
Proof.
  unfold verifyOutcome, verifyCertificate, bind, emit, ret, panic, index, st0.
  cbn [heap trace app fst snd].
  destruct (os_ReadFile L file) as [certBytes|err]; [|discriminate].
  lazymatch goal with
  | |- context [decodeBlocks ?a ?b ?c ?d] =>
      destruct (decodeBlocks a b c d) as [[blocks|]|]
  end; try discriminate.
  destruct (ParseCertificates L blocks) as [[certs|err]|]; try discriminate.
  destruct certs as [|cert0 certs]; [discriminate|]. simpl.
  destruct (hasLoopback cert0); discriminate.
Qed.

Lemma wp_verifyCertificate L file Q s :
  Q (verifyOutcome L file) (mkSt (heap s) (trace s ++ [CertificateChecked file])) ->
  wp (verifyCertificate L file) Q s.
Proof. unfold wp. rewrite verifyCertificate_run. auto. Qed.

Ltac wp_norm := cbn [heap trace List.length app wpk fst snd negb].

Ltac wp_step :=
  lazymatch goal with
  | |- wp (bind _ _) _ _ => apply wp_bind
  | |- wp (ret _) _ _ => apply wp_ret; wp_norm
  | |- wp (panic _) _ _ => apply wp_panic; wp_norm
  | |- wp (osExit _) _ _ => apply wp_osExit; wp_norm
  | |- wp (emit _) _ _ => apply wp_emit; wp_norm
  | |- wp (log _ _) _ _ => apply wp_emit; wp_norm
  | |- wp (new _) _ _ => apply wp_new; wp_norm
  | |- wp (defer _ _) _ _ => apply wp_defer
  | |- wp (verifyCertificate _ _) _ _ => apply wp_verifyCertificate; wp_norm
  | |- wp (logFatal _) _ _ => unfold logFatal
  | |- wp (fatalIf ?e _) _ _ => unfold fatalIf; destruct e eqn:?
  | |- wp (index ?l ?i) _ _ => unfold index; destruct (l !! i) eqn:?
  | |- wp (match ?x with _ => _ end) _ _ => destruct x eqn:?
  | |- wp (if ?x then _ else _) _ _ => destruct x eqn:?
  | |- wp (initializeMetron _ _) _ _ => unfold initializeMetron
  | |- wp (initializeBBSClient _) _ _ => unfold initializeBBSClient
  | |- wp (initializeCellPresence _ _ _ _ _ _) _ _ => unfold initializeCellPresence
  | |- wp (initializeServer _ _ _ _ _ _ _) _ _ => unfold initializeServer; cbn [negb]
  | |- wp (startTLSServer _ _ _) _ _ => unfold startTLSServer
  | |- wp (repURL _) _ _ => unfold repURL
  | |- wp (repAddress _ _) _ _ => unfold repAddress
  | |- wp (mainAfterExecutor _ _ _ _ _ _ _) _ _ => unfold mainAfterExecutor
  | |- wp (mainConfigured _ _) _ _ => unfold mainConfigured
  | |- wpk _ _ ?r _ => destruct r eqn:?; wp_norm
  end.

Ltac wp_run := unfold st0; repeat wp_step.

(** A property of every configured run follows from its weakest
    precondition at the empty store. *)
Lemma run_wp E cfg (Q : Res unit -> St -> Prop) :
  configOf E = Some cfg ->
  wp (mainConfigured E cfg) Q st0 ->
  Q (run E).1 (run E).2.
Proof.
  unfold configOf, run, main, bind, wp.
  destruct (config_NewRepConfig E (flag_config E)) as [c|err]; [|discriminate].
  intros [= <-]. auto.
Qed.

Lemma run_unconfigured E :
  configOf E = None ->
  exists v, run E = (Panic v, st0).
Proof.
  unfold configOf, run, main, bind, panic.
  destruct (config_NewRepConfig E (flag_config E)) as [c|err]; [discriminate|].
  eauto.
Qed.

(** ** Startup errors *)

(** C4.  In every run in which the configuration file fails to parse, the
    executor configuration fails validation or the cell id is empty, the
    process ends by a panic or an exit before the group of servers is
    started; nothing has even been constructed at that point. *)
Theorem startup_config_error_ends_before_serving (E : Env) :
  (configOf E = None \/
   exists cfg, configOf E = Some cfg /\
     (ExecutorConfig_Validate E (ExecutorConfigOf cfg) = false \/
      CellID cfg = ""%string)) ->
  terminated (run E).1 = true /\ serving (run E).2 = false /\ heap (run E).2 = [].
Proof.
  intros [Hnone | (cfg & Hcfg & Hbad)].
  - destruct (run_unconfigured E Hnone) as [v ->]. auto.
  - apply (run_wp E cfg
             (fun r st => terminated r = true /\ serving st = false /\ heap st = []) Hcfg).
    unfold mainConfigured, st0.
    apply wp_bind.
    destruct (ExecutorConfig_Validate E (ExecutorConfigOf cfg)) eqn:Hvalid; cbn [negb].
    + destruct Hbad as [Hbad | Hbad]; [discriminate|].
      rewrite Hbad. cbn [String.eqb].
      repeat wp_step. auto.
    + repeat wp_step. auto.
Qed.

Lemma startup_config_error_witness :
  (terminated (run Sample.unparsed).1 = true /\ serving (run Sample.unparsed).2 = false /\
   heap (run Sample.unparsed).2 = []) /\
  (terminated (run Sample.invalidExecutor).1 = true /\
   serving (run Sample.invalidExecutor).2 = false /\
   heap (run Sample.invalidExecutor).2 = []) /\
  (terminated (run Sample.noCellID).1 = true /\ serving (run Sample.noCellID).2 = false /\
   heap (run Sample.noCellID).2 = []).
Proof.
  split; [|split].
  - apply (startup_config_error_ends_before_serving Sample.unparsed).
    left. reflexivity.
  - apply (startup_config_error_ends_before_serving Sample.invalidExecutor).
    right. exists Sample.config. split; [reflexivity|]. left. reflexivity.
  - apply (startup_config_error_ends_before_serving Sample.noCellID).
    right. exists (Sample.configWith "" "0.0.0.0:1800" "0.0.0.0:1801").
    split; [reflexivity|]. right. reflexivity.
Defined.

(** ** What every run builds *)

Ltac use_lookups :=
  repeat match goal with
         | H : _ !! _ = _ |- _ => rewrite H
         | H : localip_LocalIP _ = _ |- _ => rewrite H
         end.

Ltac unfold_wiring :=
  unfold built, groupMembers, debugConfigured, wiring, rootFSMapOf, urlOf, addressOf,
    portOf, sidecarOf.

(** The heap of a run is a prefix of the wiring diagram. *)
Lemma run_heap_prefix E cfg :
  configOf E = Some cfg ->
  heap (run E).2 `prefix_of` wiring E cfg.
Proof.
  intros Hcfg.
  apply (run_wp E cfg (fun _ st => heap st `prefix_of` wiring E cfg) Hcfg).
  wp_run.
  all: unfold_wiring; use_lookups; cbn [default]; eexists; reflexivity.
Qed.

(** A run that starts the group has built the whole diagram, starts it with
    the members of [groupMembers] and ends as the group ends; a run that does
    not start it ends in a panic or in an exit with status 1. *)
Lemma run_group E cfg :
  configOf E = Some cfg ->
  match groupOf (trace (run E).2) with
  | Some ms =>
      (exists ems, executorinit_Initialize E = inl ems /\ ms = groupMembers cfg ems) /\
      heap (run E).2 = built E cfg /\
      (run E).1 = groupOutcome E ms
  | None => (run E).1 = Exit 1 \/ isPanic (run E).1 = true
  end.
Proof.
  intros Hcfg.
  apply (run_wp E cfg (fun r st =>
    match groupOf (trace st) with
    | Some ms =>
        (exists ems, executorinit_Initialize E = inl ems /\ ms = groupMembers cfg ems) /\
        heap st = built E cfg /\
        r = groupOutcome E ms
    | None => r = Exit 1 \/ isPanic r = true
    end) Hcfg).
  wp_run.
  all: cbn [groupOf isPanic]; auto.
  all: unfold groupOutcome.
  all: repeat match goal with
              | H : groupWait _ _ = _ |- _ => rewrite H; clear H
              end.
  all: unfold_wiring; unfold membersOf, ownMembers; use_lookups.
  all: repeat match goal with
              | H : negb _ = _ |- _ => rewrite ?H; clear H
              end.
  all: try match goal with
           | H : verifyOutcome _ _ = Exit _ |- _ =>
               exfalso; exact (verifyOutcome_no_exit _ _ _ H)
           end.
  all: cbn [default take]; split; [eexists; split; reflexivity | split; reflexivity].
Qed.

(** Every object of a run sits in the wiring diagram at its own position,
    and so does everything built before it. *)
Lemma run_lookup E i o :
  heap (run E).2 !! i = Some o ->
  exists cfg, configOf E = Some cfg /\ wiring E cfg !! i = Some o /\
    forall k, (k <= i)%nat -> heap (run E).2 !! k = wiring E cfg !! k.
Proof.
  intros Hi.
  destruct (configOf E) as [cfg|] eqn:Hcfg.
  - exists cfg. pose proof (run_heap_prefix E cfg Hcfg) as Hpre.
    split; [reflexivity|]. split.
    + eapply prefix_lookup_Some; eassumption.
    + intros k Hk. apply prefix_lookup_lt; [|assumption].
      apply lookup_lt_Some in Hi. lia.
  - destruct (run_unconfigured E Hcfg) as [v Hrun]. rewrite Hrun in Hi. discriminate.
Qed.

(** Case analysis on the position of an object of the wiring diagram. *)
Ltac wiring_cases H :=
  unfold wiring in H;
  repeat (lazymatch type of H with
          | (_ :: _) !! ?i = Some _ =>
              destruct i as [|i];
              [ cbn [lookup list_lookup] in H; try discriminate H
              | cbn [lookup list_lookup] in H ]
          | [] !! _ = Some _ => discriminate H
          end).

Lemma serving_configured E :
  serving (run E).2 = true ->
  exists cfg ems,
    configOf E = Some cfg /\ executorinit_Initialize E = inl ems /\
    groupOf (trace (run E).2) = Some (groupMembers cfg ems) /\
    heap (run E).2 = built E cfg /\
    (run E).1 = groupOutcome E (groupMembers cfg ems).
Proof.
  unfold serving. intros Hs.
  destruct (configOf E) as [cfg|] eqn:Hcfg.
  - pose proof (run_group E cfg Hcfg) as Hg.
    destruct (groupOf (trace (run E).2)) as [ms|]; [|discriminate].
    destruct Hg as ((ems & Hems & ->) & Hheap & Hres).
    exists cfg, ems. auto.
  - destruct (run_unconfigured E Hcfg) as [v Hrun]. rewrite Hrun in Hs. discriminate.
Qed.

Lemma own_member_in_group cfg ems m :
  m ∈ ownMembers -> m ∈ groupMembers cfg ems.
Proof.
  intros Hm. unfold groupMembers, membersOf.
  destruct (debugConfigured cfg); cbn [app];
    [apply list_elem_of_further|]; apply elem_of_app; right; exact Hm.
Qed.

Ltac in_list :=
  repeat first [apply list_elem_of_here | apply list_elem_of_further].

Lemma built_lookup E cfg i :
  (i < 19)%nat -> built E cfg !! i = wiring E cfg !! i.
Proof.
  intros Hi. unfold built. apply lookup_take_lt. destruct (debugConfigured cfg); lia.
Qed.

(** ** One generator and one queue *)

(** C6.  Whatever bulker and event consumer a run has built, they were given
    the same operation generator and the same operation queue, these are the
    only generator and the only queue built, and a run that starts the group
    has built both consumers and runs them as the members "bulker" and
    "event-consumer". *)
Theorem bulker_and_event_consumer_share (E : Env) :
  let h := heap (run E).2 in
  (forall i j n g q m g' q',
     h !! i = Some (Bulker n g q m) ->
     h !! j = Some (EventConsumer g' q') ->
     g = g' /\ q = q' /\
     isOperationGenerator (h !! g) = true /\ isSlidingQueue (h !! q) = true /\
     (forall k, isOperationGenerator (h !! k) = true -> k = g) /\
     (forall k, isSlidingQueue (h !! k) = true -> k = q)) /\
  (serving (run E).2 = true ->
   exists i j n g q m ms,
     h !! i = Some (Bulker n g q m) /\ h !! j = Some (EventConsumer g q) /\
     groupOf (trace (run E).2) = Some ms /\
     ("bulker"%string, RunnerOf i) ∈ ms /\ ("event-consumer"%string, RunnerOf j) ∈ ms).
Proof.
  cbn zeta. split.
  - intros i j n g q m g' q' Hb Hc.
    destruct (run_lookup E i _ Hb) as (cfg & Hcfg & Hwb & Hlow).
    destruct (run_lookup E j _ Hc) as (cfg' & Hcfg' & Hwc & _).
    assert (cfg' = cfg) as -> by congruence.
    wiring_cases Hwb. wiring_cases Hwc.
    injection Hwb as <- <- <- <-. injection Hwc as <- <-.
    split; [reflexivity|]. split; [reflexivity|].
    rewrite (Hlow 15%nat) by lia. rewrite (Hlow 4%nat) by lia.
    split; [reflexivity|]. split; [reflexivity|].
    split; intros k Hk.
    + destruct (heap (run E).2 !! k) as [o|] eqn:Ho; [|discriminate].
      destruct (run_lookup E k _ Ho) as (cfg2 & _ & Hw & _).
      destruct o; try discriminate. wiring_cases Hw. reflexivity.
    + destruct (heap (run E).2 !! k) as [o|] eqn:Ho; [|discriminate].
      destruct (run_lookup E k _ Ho) as (cfg2 & _ & Hw & _).
      destruct o; try discriminate. wiring_cases Hw. reflexivity.
  - intros Hs.
    destruct (serving_configured E Hs) as (cfg & ems & Hcfg & Hems & Hg & Hheap & _).
    exists 17%nat, 18%nat, (mkCap 3 EvacuationNotifier), 15%nat, 4%nat, 0%nat,
      (groupMembers cfg ems).
    rewrite Hheap, !built_lookup by lia.
    split; [reflexivity|]. split; [reflexivity|]. split; [assumption|].
    split; apply own_member_in_group; unfold ownMembers; in_list.
Qed.

Lemma bulker_and_event_consumer_share_witness :
  (15 = 15 /\ 4 = 4 /\
   isOperationGenerator (heap (run Sample.good).2 !! 15) = true /\
   isSlidingQueue (heap (run Sample.good).2 !! 4) = true /\
   (forall k, isOperationGenerator (heap (run Sample.good).2 !! k) = true -> k = 15) /\
   (forall k, isSlidingQueue (heap (run Sample.good).2 !! k) = true -> k = 4))%nat /\
  exists i j n g q m ms,
    heap (run Sample.good).2 !! i = Some (Bulker n g q m) /\
    heap (run Sample.good).2 !! j = Some (EventConsumer g q) /\
    groupOf (trace (run Sample.good).2) = Some ms /\
    ("bulker"%string, RunnerOf i) ∈ ms /\ ("event-consumer"%string, RunnerOf j) ∈ ms.
Proof.
  split.
  - apply (proj1 (bulker_and_event_consumer_share Sample.good) 17 18
             (mkCap 3 EvacuationNotifier) 15 4 0 15 4)%nat.
    + vm_compute. reflexivity.
    + vm_compute. reflexivity.
  - apply (proj2 (bulker_and_event_consumer_share Sample.good)).
    vm_compute. reflexivity.
Defined.

(** ** The request types *)

(** C7.  The request types registered for request metrics are, without
    repetition, exactly the seven operations of the auction surface, and
    every request-metrics notifier that a run builds is registered with
    them.  A run builds at most one such notifier; the handlers of both
    servers report to it, and a run that starts the group has built it and
    runs it as the member "request-metrics-notifier". *)
Theorem request_types_are_the_auction_surface (E : Env) :
  NoDup requestTypes /\
  List.length requestTypes = 7%nat /\
  (forall s, s ∈ requestTypes <-> s ∈ auctionSurface) /\
  Forall (fun o =>
            match o with
            | RequestMetricsNotifier _ types => types = requestTypes
            | _ => True
            end) (heap (run E).2) /\
  (forall j a e c rm n,
     heap (run E).2 !! j = Some (Handlers a e c rm n) ->
     exists metron,
       heap (run E).2 !! rm = Some (RequestMetricsNotifier metron requestTypes) /\
       forall k metron' types,
         heap (run E).2 !! k = Some (RequestMetricsNotifier metron' types) -> k = rm) /\
  (serving (run E).2 = true ->
   exists r metron ms,
     heap (run E).2 !! r = Some (RequestMetricsNotifier metron requestTypes) /\
     groupOf (trace (run E).2) = Some ms /\
     ("request-metrics-notifier"%string, RunnerOf r) ∈ ms).
Proof.
  split; [|split; [|split; [|split; [|split]]]].
  - unfold requestTypes. repeat (apply NoDup_cons; split; [|]);
      [ .. | apply NoDup_nil; exact I ];
      rewrite ?elem_of_cons, elem_of_nil; intros H;
      repeat (destruct H as [H|H]; [discriminate H|]); exact H.
  - reflexivity.
  - intros s. unfold requestTypes, auctionSurface.
    rewrite !elem_of_cons, !elem_of_nil. tauto.
  - apply Forall_lookup. intros i o Hi.
    destruct (run_lookup E i o Hi) as (cfg & _ & Hw & _).
    destruct o; try exact I. wiring_cases Hw. injection Hw as _ <-. reflexivity.
  - intros j a e c rm n Hj.
    destruct (run_lookup E j _ Hj) as (cfg & Hcfg & Hw & Hlow).
    assert (forall k metron' types,
              heap (run E).2 !! k = Some (RequestMetricsNotifier metron' types) ->
              k = 10%nat) as Hone.
    { intros k metron' types Hk.
      destruct (run_lookup E k _ Hk) as (cfg2 & _ & Hw2 & _).
      wiring_cases Hw2. reflexivity. }
    wiring_cases Hw; injection Hw as <- <- <- <- <-;
      (exists 0%nat; split; [rewrite (Hlow 10%nat) by lia; reflexivity | exact Hone]).
  - intros Hs.
    destruct (serving_configured E Hs) as (cfg & ems & Hcfg & Hems & Hg & Hheap & _).
    exists 10%nat, 0%nat, (groupMembers cfg ems).
    rewrite Hheap, !built_lookup by lia.
    split; [reflexivity|]. split; [assumption|].
    apply own_member_in_group; unfold ownMembers; in_list.
Qed.

Lemma request_types_are_the_auction_surface_witness :
  (exists metron,
     heap (run Sample.good).2 !! 10%nat = Some (RequestMetricsNotifier metron requestTypes) /\
     forall k metron' types,
       heap (run Sample.good).2 !! k = Some (RequestMetricsNotifier metron' types) ->
       k = 10%nat) /\
  exists r metron ms,
    heap (run Sample.good).2 !! r = Some (RequestMetricsNotifier metron requestTypes) /\
    groupOf (trace (run Sample.good).2) = Some ms /\
    ("request-metrics-notifier"%string, RunnerOf r) ∈ ms.
Proof.
  destruct (request_types_are_the_auction_surface Sample.good)
    as (_ & _ & _ & _ & Hhandlers & Hserving).
  split.
  - apply (Hhandlers 13%nat 9%nat 1%nat (mkCap 3 Evacuatable) 10%nat true).
    vm_compute. reflexivity.
  - apply Hserving. vm_compute. reflexivity.
Defined.

(** ** Who is handed the evacuation state *)






(** ** The operation queue *)

Module OperationQFacts.
Import OperationQ.

Lemma slide_length n l : (List.length (slide n l) <= n)%nat.
Proof. unfold slide. rewrite length_drop. lia. Qed.

Lemma slide_one l op : slide 1 (l ++ [op]) = [op].
Proof.
  unfold slide. rewrite length_app. cbn [List.length].
  replace (List.length l + 1 - 1)%nat with (List.length l + 0)%nat by lia.
  rewrite drop_app_add. reflexivity.
Qed.

Lemma stateOf_bounded q key :
  bounded q -> (List.length (pending (stateOf q key)) <= depth q)%nat.
Proof.
  intros Hq. unfold stateOf.
  destruct (keys q !! key) as [ks|] eqn:Hk; cbn [default].
  - exact (Hq key ks Hk).
  - cbn. lia.
Qed.

Lemma step_depth q a : depth (step q a) = depth q.
Proof.
  destruct a as [op|key|key]; cbn [step]; unfold Push, Start, Finish.
  - reflexivity.
  - destruct (inFlight (stateOf q key)); [reflexivity|].
    destruct (pending (stateOf q key)); [reflexivity|].
    destruct (busy q <? workers q)%nat; reflexivity.
  - destruct (inFlight (stateOf q key)); reflexivity.
Qed.

Lemma step_bounded q a : bounded q -> bounded (step q a).
Proof.
  intros Hq key ks. rewrite step_depth.
  destruct a as [op|k|k]; cbn [step]; unfold Push, Start, Finish.
  - cbn [keys]. destruct (decide (opKey op = key)) as [->|Hne].
    + rewrite lookup_insert_eq. intros [= <-]. cbn [pending]. apply slide_length.
    + rewrite lookup_insert_ne by exact Hne. apply Hq.
  - pose proof (stateOf_bounded q k Hq) as Hk.
    destruct (inFlight (stateOf q k)); [apply Hq|].
    destruct (pending (stateOf q k)) as [|op rest]; [apply Hq|].
    destruct (busy q <? workers q)%nat; [|apply Hq].
    cbn [keys]. destruct (decide (k = key)) as [->|Hne].
    + rewrite lookup_insert_eq. intros [= <-]. cbn [pending List.length] in *. lia.
    + rewrite lookup_insert_ne by exact Hne. apply Hq.
  - pose proof (stateOf_bounded q k Hq) as Hk.
    destruct (inFlight (stateOf q k)); [|apply Hq].
    cbn [keys]. destruct (decide (k = key)) as [->|Hne].
    + rewrite lookup_insert_eq. intros [= <-]. cbn [pending]. exact Hk.
    + rewrite lookup_insert_ne by exact Hne. apply Hq.
Qed.

Lemma exec_depth actions : forall q, depth (exec q actions) = depth q.
Proof.
  induction actions as [|a actions IH]; intros q; [reflexivity|].
  cbn [exec fold_left]. fold (exec (step q a) actions). rewrite IH. apply step_depth.
Qed.

Lemma exec_bounded actions : forall q, bounded q -> bounded (exec q actions).
Proof.
  induction actions as [|a actions IH]; intros q Hq; [exact Hq|].
  cbn [exec fold_left]. apply IH, step_bounded, Hq.
Qed.

Lemma new_bounded capacity workers : bounded (NewSlidingQueue capacity workers).
Proof. intros key ks. cbn [NewSlidingQueue keys]. rewrite lookup_empty. discriminate. Qed.

Lemma exec_snoc q actions a : exec q (actions ++ [a]) = step (exec q actions) a.
Proof. unfold exec. rewrite fold_left_app. reflexivity. Qed.

End OperationQFacts.

(** C1.  Every operation queue that a run builds is a sliding queue of
    depth 1, a run that starts the group has built one, and in a sliding
    queue of that depth, whatever is pushed, started and finished, no key
    ever has more than one pending operation, be an operation of that key in
    flight or not; a push leaves the pushed operation as the only pending
    one of its key. *)
Theorem operation_queue_slides_at_depth_one (E : Env) :
  (serving (run E).2 = true ->
   exists i, heap (run E).2 !! i = Some (SlidingQueue 1)) /\
  (forall i capacity, heap (run E).2 !! i = Some (SlidingQueue capacity) ->
     capacity = 1%Z /\
     forall workers actions,
       let q := OperationQ.exec (OperationQ.NewSlidingQueue capacity workers) actions in
       (forall key ks, OperationQ.keys q !! key = Some ks ->
          (List.length (OperationQ.pending ks) <= 1)%nat) /\
       (forall op, OperationQ.pending
                     (OperationQ.stateOf (OperationQ.Push op q) (OperationQ.opKey op))
                   = [op])).
Proof.
  split.
  - intros Hs.
    destruct (serving_configured E Hs) as (cfg & ems & _ & _ & _ & Hheap & _).
    exists 4%nat. rewrite Hheap, built_lookup by lia. reflexivity.
  - intros i capacity Hi.
    destruct (run_lookup E i _ Hi) as (cfg & _ & Hw & _).
    wiring_cases Hw. injection Hw as <-.
    split; [reflexivity|]. intros workers actions q.
    assert (OperationQ.depth q = 1%nat) as Hdepth.
    { unfold q. rewrite OperationQFacts.exec_depth. reflexivity. }
    split.
    + intros key ks Hk. rewrite <- Hdepth.
      exact (OperationQFacts.exec_bounded actions _
               (OperationQFacts.new_bounded 1 workers) key ks Hk).
    + intros op. unfold OperationQ.stateOf at 1, OperationQ.Push. cbn [OperationQ.keys].
      rewrite lookup_insert_eq. cbn [default OperationQ.pending].
      rewrite Hdepth. apply OperationQFacts.slide_one.
Qed.

Lemma operation_queue_slides_at_depth_one_witness :
  (exists i, heap (run Sample.good).2 !! i = Some (SlidingQueue 1)) /\
  (1 = 1)%Z /\
  forall workers actions,
    let q := OperationQ.exec (OperationQ.NewSlidingQueue 1 workers) actions in
    (forall key ks, OperationQ.keys q !! key = Some ks ->
       (List.length (OperationQ.pending ks) <= 1)%nat) /\
    (forall op, OperationQ.pending
                  (OperationQ.stateOf (OperationQ.Push op q) (OperationQ.opKey op))
                = [op]).
Proof.
  split.
  - apply (proj1 (operation_queue_slides_at_depth_one Sample.good)).
    vm_compute. reflexivity.
  - apply (proj2 (operation_queue_slides_at_depth_one Sample.good) 4%nat 1%Z).
    vm_compute. reflexivity.
Defined.

(** ** The end of the group *)

Lemma groupWait_failure exitOf ms name runner err :
  (name, runner) ∈ ms -> exitOf name = Some (Some err) ->
  exists e, groupWait exitOf ms = Some e.
Proof.
  induction ms as [|m ms IH]; intros Hin Hexit.
  - apply elem_of_nil in Hin. contradiction.
  - cbn [groupWait]. destruct (memberFailure exitOf m) as [e|] eqn:Hm; [eauto|].
    apply elem_of_cons in Hin as [<- | Hin]; [|exact (IH Hin Hexit)].
    unfold memberFailure in Hm. cbn [fst] in Hm. rewrite Hexit in Hm. discriminate.
Qed.

Lemma groupWait_quiet exitOf ms :
  (forall name runner, (name, runner) ∈ ms ->
     exitOf name = None \/ exitOf name = Some None) ->
  groupWait exitOf ms = None.
Proof.
  induction ms as [|[name runner] ms IH]; intros Hall; [reflexivity|].
  cbn [groupWait]. unfold memberFailure. cbn [fst].
  destruct (Hall name runner (list_elem_of_here _ _)) as [-> | ->];
    apply IH; intros n r Hin; apply (Hall n r), list_elem_of_further, Hin.
Qed.

(** C5.  Once the group has been started, the presence runner is one of its
    members, and if any member ends with an error the process exits with
    status 1; it returns from [main] when none does. *)
Theorem failing_member_exits_with_status_1 (E : Env) (ms : list (string * Runner)) :
  groupOf (trace (run E).2) = Some ms ->
  (exists r cellID address url names,
     ("presence"%string, RunnerOf r) ∈ ms /\
     heap (run E).2 !! r = Some (PresenceRunner cellID address url names)) /\
  (forall name runner err,
     (name, runner) ∈ ms -> memberExit E name = Some (Some err) ->
     (run E).1 = Exit 1) /\
  ((forall name runner, (name, runner) ∈ ms ->
      memberExit E name = None \/ memberExit E name = Some None) ->
   (run E).1 = Ret tt).
Proof.
  intros Hg.
  assert (serving (run E).2 = true) as Hs by (unfold serving; rewrite Hg; reflexivity).
  destruct (serving_configured E Hs) as (cfg & ems & _ & _ & Hg' & Hheap & Hres).
  rewrite Hg in Hg'. injection Hg' as ->.
  split; [|split].
  - exists 7%nat. do 4 eexists. split.
    + apply own_member_in_group. unfold ownMembers. in_list.
    + rewrite Hheap, built_lookup by lia. reflexivity.
  - intros name runner err Hin Hexit. rewrite Hres. unfold groupOutcome.
    destruct (groupWait_failure _ _ _ _ _ Hin Hexit) as [e ->]. reflexivity.
  - intros Hall. rewrite Hres. unfold groupOutcome.
    rewrite (groupWait_quiet _ _ Hall). reflexivity.
Qed.

Lemma failing_member_exits_with_status_1_witness :
  (run Sample.presenceLost).1 = Exit 1 /\ (run Sample.good).1 = Ret tt.
Proof.
  split.
  - destruct (failing_member_exits_with_status_1 Sample.presenceLost
                (groupMembers Sample.config ["volman-syncer"; "depot-client"]%string))
      as (_ & Hfail & _).
    + vm_compute. reflexivity.
    + apply (Hfail "presence"%string (RunnerOf 7) (Err "lost lock")).
      * apply own_member_in_group. unfold ownMembers. in_list.
      * reflexivity.
  - destruct (failing_member_exits_with_status_1 Sample.good
                (groupMembers Sample.config ["volman-syncer"; "depot-client"]%string))
      as (_ & _ & Hquiet).
    + vm_compute. reflexivity.
    + apply Hquiet. intros name runner _. right. reflexivity.
Defined.

(** ** The certificate check *)

(** A run checks the certificate at most once, before the group starts and
    on the configured certificate file; the group only starts after a check
    that found nothing wrong, and a check that did not pass ends the run in a
    panic, through [logger.Fatal] when the check returned an error. *)
Lemma run_certificate_checks E cfg :
  configOf E = Some cfg ->
  let t := trace (run E).2 in
  let outcome := verifyOutcome (certLib E) (CertFile cfg) in
  (certificateChecks t = [] \/ certificateChecks t = [CertificateChecked (CertFile cfg)]) /\
  certificateChecks (afterGroup t) = [] /\
  (groupOf t <> None ->
   certificateChecks t = [CertificateChecked (CertFile cfg)] /\ outcome = Ret None) /\
  (certificateChecks t <> [] -> outcome <> Ret None ->
   isPanic (run E).1 = true /\ groupOf t = None /\
   (forall err, outcome = Ret (Some err) ->
      Logged FATAL "tls-configuration-failed" ∈ t)).
Proof.
  intros Hcfg.
  apply (run_wp E cfg (fun r st =>
    let t := trace st in
    let outcome := verifyOutcome (certLib E) (CertFile cfg) in
    (certificateChecks t = [] \/ certificateChecks t = [CertificateChecked (CertFile cfg)]) /\
    certificateChecks (afterGroup t) = [] /\
    (groupOf t <> None ->
     certificateChecks t = [CertificateChecked (CertFile cfg)] /\ outcome = Ret None) /\
    (certificateChecks t <> [] -> outcome <> Ret None ->
     isPanic r = true /\ groupOf t = None /\
     (forall err, outcome = Ret (Some err) ->
        Logged FATAL "tls-configuration-failed" ∈ t))) Hcfg).
  wp_run.
  all: cbn [certificateChecks List.filter isCertificateChecked afterGroup groupOf isPanic].
  all: try match goal with
           | H : verifyOutcome _ _ = Exit _ |- _ =>
               exfalso; exact (verifyOutcome_no_exit _ _ _ H)
           end.
  all: subst.
  all: repeat match goal with
              | H : verifyOutcome _ _ = _ |- _ => rewrite H; clear H
              end.
  all: split; [auto|]; split; [reflexivity|]; split;
    [ first [ intros Hn; exfalso; apply Hn; reflexivity | intros _; split; reflexivity ] |].
  all: first [ intros Hn; exfalso; apply Hn; reflexivity
             | intros _ Hn; exfalso; apply Hn; reflexivity
             | intros _ _; split; [reflexivity|]; split; [reflexivity|];
               intros err Herr; first [discriminate Herr | in_list] ].
Qed.

Lemma network_only_not_local r :
  r ∈ networkOnlyRoutes -> r ∉ NewRoutes false.
Proof.
  unfold NewRoutes, networkOnlyRoutes. cbn [app]. rewrite !list_elem_of_In. cbn [In].
  intros Hr Hin.
  destruct Hr as [<- | [<- | [<- | [<- | []]]]];
    destruct Hin as [Hin | [Hin | [Hin | []]]]; discriminate Hin.
Qed.

(** C3.  The four network-only endpoints are routed on the network-accessible
    listener alone: a server that routes one of them listens on the securable
    address, with the routes and the handlers of the network-accessible side.
    The certificate is checked at most once in a run, never after the group
    has started, and exactly once, successfully, in a run that starts the
    group; a check that does not pass ends the process in a panic before the
    group starts. *)
Theorem network_only_routes_and_certificate_check (E : Env) (cfg : RepConfig) :
  configOf E = Some cfg ->
  let st := (run E).2 in
  (forall r, r ∈ networkOnlyRoutes -> r ∈ NewRoutes true /\ r ∉ NewRoutes false) /\
  (forall i addr routes h r,
     heap st !! i = Some (TLSServer addr routes h) ->
     r ∈ networkOnlyRoutes -> r ∈ routes ->
     addr = ListenAddrSecurable cfg /\ routes = NewRoutes true /\
     exists rep executor evacuatable metrics,
       heap st !! h = Some (Handlers rep executor evacuatable metrics true)) /\
  (List.length (certificateChecks (trace st)) <= 1)%nat /\
  certificateChecks (afterGroup (trace st)) = [] /\
  (serving st = true ->
   certificateChecks (trace st) = [CertificateChecked (CertFile cfg)] /\
   verifyOutcome (certLib E) (CertFile cfg) = Ret None) /\
  (certificateChecks (trace st) <> [] ->
   verifyOutcome (certLib E) (CertFile cfg) <> Ret None ->
   isPanic (run E).1 = true /\ serving st = false).
Proof.
  intros Hcfg st.
  destruct (run_certificate_checks E cfg Hcfg) as (Hone & Hafter & Hserving & Hfail).
  fold st in Hone, Hafter, Hserving, Hfail.
  split; [|split; [|split; [|split; [|split]]]].
  - intros r Hr. split.
    + unfold NewRoutes. apply elem_of_app. right. exact Hr.
    + exact (network_only_not_local r Hr).
  - intros i addr routes h r Hi Hr Hin.
    destruct (run_lookup E i _ Hi) as (cfg' & Hcfg' & Hw & Hlow).
    assert (cfg' = cfg) as -> by congruence.
    wiring_cases Hw; injection Hw as <- <- <-.
    + exfalso. exact (network_only_not_local r Hr Hin).
    + split; [reflexivity|]. split; [reflexivity|].
      do 4 eexists. unfold st. rewrite (Hlow 13%nat) by lia. reflexivity.
  - destruct Hone as [-> | ->]; cbn; lia.
  - exact Hafter.
  - unfold serving. intros Hs. apply Hserving. intros Hnone. rewrite Hnone in Hs.
    discriminate Hs.
  - intros Hchecked Hbad. destruct (Hfail Hchecked Hbad) as (Hpanic & Hgroup & _).
    split; [exact Hpanic|]. unfold serving. rewrite Hgroup. reflexivity.
Qed.

Lemma network_only_routes_and_certificate_check_witness :
  (certificateChecks (trace (run Sample.good).2)
     = [CertificateChecked (CertFile Sample.config)] /\
   verifyOutcome (certLib Sample.good) (CertFile Sample.config) = Ret None) /\
  (isPanic (run Sample.wrongSAN).1 = true /\ serving (run Sample.wrongSAN).2 = false).
Proof.
  split.
  - apply (network_only_routes_and_certificate_check Sample.good Sample.config).
    + reflexivity.
    + vm_compute. reflexivity.
  - apply (network_only_routes_and_certificate_check Sample.wrongSAN Sample.config).
    + reflexivity.
    + vm_compute. discriminate.
    + vm_compute. discriminate.
Defined.

(** ** Listen addresses without a port *)

Lemma Split_no_separator s sep :
  ContainsByte s sep = false -> Split s sep = [s].
Proof.
  induction s as [|c s IH]; cbn [ContainsByte Split]; [reflexivity|].
  intros H. apply orb_false_iff in H as [-> Hs]. rewrite (IH Hs). reflexivity.
Qed.

Lemma Split_length s sep : (1 <= List.length (Split s sep))%nat.
Proof.
  induction s as [|c s IH]; cbn [Split]; [cbn; lia|].
  destruct (Ascii.eqb c sep); [cbn; lia|].
  destruct (Split s sep); cbn in *; lia.
Qed.

(** With a separator in it, the address has an element 1. *)
Lemma Split_separator s sep :
  ContainsByte s sep = true -> exists port, Split s sep !! 1%nat = Some port.
Proof.
  induction s as [|c s IH]; cbn [ContainsByte Split]; [discriminate|].
  destruct (Ascii.eqb c sep); cbn [orb].
  - intros _. pose proof (Split_length s sep) as Hlen.
    destruct (Split s sep) as [|p rest]; [cbn in Hlen; lia|]. exists p. reflexivity.
  - intros Hs. destruct (IH Hs) as [port Hport].
    destruct (Split s sep) as [|h t]; [discriminate|]. exists port. exact Hport.
Qed.

Lemma no_port addr :
  hasColon addr = false -> Split addr ":"%char !! 1%nat = None.
Proof. intros H. unfold hasColon in H. rewrite (Split_no_separator _ _ H). reflexivity. Qed.

Lemma repURL_panics cfg s :
  hasColon (ListenAddrSecurable cfg) = false ->
  repURL cfg s = (Panic "runtime error: index out of range", s).
Proof.
  intros H. unfold repURL, index, bind, panic. rewrite (no_port _ H). reflexivity.
Qed.

Lemma repAddress_panics E cfg s :
  hasColon (ListenAddr cfg) = false ->
  isPanic (repAddress E cfg s).1 = true.
Proof.
  intros H. unfold repAddress, index, bind, logFatal, log, emit, panic, ret.
  rewrite (no_port _ H). destruct (localip_LocalIP E); reflexivity.
Qed.

(** A run whose configuration lacks a port never starts the group, and it
    panics when the steps before [repURL] succeed. *)
Lemma run_without_port E cfg :
  configOf E = Some cfg ->
  hasColon (ListenAddrSecurable cfg) = false \/ hasColon (ListenAddr cfg) = false ->
  groupOf (trace (run E).2) = None /\
  (reachesRepURL E cfg -> isPanic (run E).1 = true).
Proof.
  intros Hcfg Hport.
  assert (Split (ListenAddrSecurable cfg) ":"%char !! 1%nat = None \/
          Split (ListenAddr cfg) ":"%char !! 1%nat = None) as Hnone.
  { destruct Hport as [H|H]; [left|right]; exact (no_port _ H). }
  clear Hport.
  apply (run_wp E cfg (fun r st =>
    groupOf (trace st) = None /\ (reachesRepURL E cfg -> isPanic r = true)) Hcfg).
  wp_run.
  all: cbn [groupOf isPanic].
  all: try (destruct Hnone as [Hnone|Hnone]; congruence).
  all: split; [reflexivity|]; try (intros _; reflexivity).
  all: intros (_ & Hvalid & Hid & Hmetron & (ems & Hexec) & Hbbs).
  all: try congruence.
  all: match goal with
       | H : (CellID _ =? "")%string = true |- _ =>
           apply String.eqb_eq in H; contradiction
       end.
Qed.

(** C9, as stated, fails: with neither port nor cell id in the
    configuration the process reports the missing cell id and exits with
    status 1; it does not panic. *)
Lemma no_port_does_not_always_panic :
  let E := Sample.noPortNoCellID in
  let cfg := Sample.configWith "" "0.0.0.0" "0.0.0.0" in
  configOf E = Some cfg /\
  hasColon (ListenAddrSecurable cfg) = false /\ hasColon (ListenAddr cfg) = false /\
  run E = (Exit 1, mkSt [] [Logged ERROR "invalid-cell-id"]) /\
  isPanic (run E).1 = false.
Proof. vm_compute. repeat split; reflexivity. Qed.

(** C9, amended.  [repURL] and [repAddress] index element 1 of the listen
    address split on [":"]: without a colon in the securable listen address
    [repURL] panics, without a colon in the listen address [repAddress]
    panics.  A run with such a configuration never starts the group; it ends
    in a panic, or at one of the earlier startup checks in an exit, and it
    ends in a panic whenever the steps before [repURL] succeed. *)
Theorem listen_address_without_port (E : Env) (cfg : RepConfig) :
  configOf E = Some cfg ->
  hasColon (ListenAddrSecurable cfg) = false \/ hasColon (ListenAddr cfg) = false ->
  (hasColon (ListenAddrSecurable cfg) = false ->
   forall s, repURL cfg s = (Panic "runtime error: index out of range", s)) /\
  (hasColon (ListenAddr cfg) = false ->
   forall s, isPanic (repAddress E cfg s).1 = true) /\
  serving (run E).2 = false /\
  ((run E).1 = Exit 1 \/ isPanic (run E).1 = true) /\
  (reachesRepURL E cfg -> isPanic (run E).1 = true).
Proof.
  intros Hcfg Hport.
  destruct (run_without_port E cfg Hcfg Hport) as (Hgroup & Hpanic).
  pose proof (run_group E cfg Hcfg) as Hend. rewrite Hgroup in Hend.
  split; [|split; [|split; [|split]]].
  - intros H s. exact (repURL_panics cfg s H).
  - intros H s. exact (repAddress_panics E cfg s H).
  - unfold serving. rewrite Hgroup. reflexivity.
  - exact Hend.
  - exact Hpanic.
Qed.

Lemma listen_address_without_port_witness :
  let cfg := Sample.configWith "cell_z1_0" "0.0.0.0" "0.0.0.0:1801" in
  (forall s, isPanic (repAddress Sample.noPort cfg s).1 = true) /\
  serving (run Sample.noPort).2 = false /\
  isPanic (run Sample.noPort).1 = true.
Proof.
  destruct (listen_address_without_port Sample.noPort
              (Sample.configWith "cell_z1_0" "0.0.0.0" "0.0.0.0:1801"))
    as (_ & Haddress & Hserving & _ & Hpanic).
  - reflexivity.
  - right. vm_compute. reflexivity.
  - split; [|split].
    + apply Haddress. vm_compute. reflexivity.
    + exact Hserving.
    + apply Hpanic. unfold reachesRepURL.
      repeat split; try reflexivity; try discriminate. eexists. reflexivity.
Defined.

(** ** The walk over the extra root file systems *)

Lemma extraRootfsFn_visit path m :
  extraRootfsFn path None m = (addRootfs m path, None).
Proof.
  unfold extraRootfsFn, addRootfs, isTar, stackOf.
  destruct (EqualFold (Ext path) ".tar"); reflexivity.
Qed.

Lemma extraRootfsFn_error path err m :
  extraRootfsFn path (Some err) m = (m, Some err).
Proof. reflexivity. Qed.

(** The walk of a tree folds [addRootfs] over the visited paths. *)
Lemma walkDir_visited d :
  forall m, walkDir extraRootfsFn d m
            = (fold_left addRootfs (visited d).1 m, (visited d).2).
Proof.
  induction d as [path | path readErr entries IH] using DirEntry_nested_ind; intros m.
  - cbn [walkDir visited fst snd fold_left]. apply extraRootfsFn_visit.
  - cbn [walkDir visited]. rewrite extraRootfsFn_visit.
    destruct readErr as [err|].
    + rewrite extraRootfsFn_error. reflexivity.
    + lazymatch goal with
      | |- ?loop entries _ = (fold_left _ (let '(ps, err) := ?vloop entries in _).1 _, _) =>
          set (walkAll := loop); set (visitAll := vloop)
      end.
      assert (forall m1, walkAll entries m1
                         = (fold_left addRootfs (visitAll entries).1 m1,
                            (visitAll entries).2)) as Hall.
      { induction IH as [|d1 rest Hd1 _ IHrest]; intros m1; [reflexivity|].
        change (walkAll (d1 :: rest) m1) with
          (match walkDir extraRootfsFn d1 m1 with
           | (s', None) => walkAll rest s'
           | (s', Some err) => if isSkipDir err then (s', None) else (s', Some err)
           end).
        change (visitAll (d1 :: rest)) with
          (match visited d1 with
           | (ps, Some err) => (ps, if isSkipDir err then None else Some err)
           | (ps, None) => let '(qs, err) := visitAll rest in (ps ++ qs, err)
           end).
        rewrite Hd1. destruct (visited d1) as [ps [err|]]; cbn [fst snd].
        - destruct (isSkipDir err); reflexivity.
        - rewrite IHrest. destruct (visitAll rest) as [qs err]. cbn [fst snd].
          rewrite fold_left_app. reflexivity. }
      rewrite Hall. destruct (visitAll entries) as [ps err]. reflexivity.
Qed.

(** The map after the whole walk. *)
Lemma WalkDir_visited lstat root m :
  (WalkDir extraRootfsFn lstat root m).1
  = fold_left addRootfs (visitedFrom (lstat root)) m.
Proof.
  unfold WalkDir, visitedFrom. destruct (lstat root) as [d|err].
  - rewrite walkDir_visited. destruct (visited d) as [ps [[| |msg]|]]; reflexivity.
  - rewrite extraRootfsFn_error. destruct err; reflexivity.
Qed.

(** Without a read error the walk visits every path of the tree and ends
    without an error. *)
Lemma visited_readErrFree d :
  readErrFree d -> visited d = (pathsOf d, None).
Proof.
  induction d as [path | path readErr entries IH] using DirEntry_nested_ind.
  - reflexivity.
  - cbn [readErrFree]. intros [-> Hall]. cbn [visited pathsOf].
    lazymatch goal with
    | |- (let '(ps, err) := ?vloop entries in _) = _ => set (visitAll := vloop)
    end.
    assert (visitAll entries = (flat_map pathsOf entries, None)) as ->; [|reflexivity].
    induction IH as [|d1 rest Hd1 _ IHrest]; [reflexivity|].
    destruct Hall as [H1 Hrest].
    change (visitAll (d1 :: rest)) with
      (match visited d1 with
       | (ps, Some err) => (ps, if isSkipDir err then None else Some err)
       | (ps, None) => let '(qs, err) := visitAll rest in (ps ++ qs, err)
       end).
    rewrite (Hd1 H1), (IHrest Hrest). reflexivity.
Qed.

Lemma fold_addRootfs_other ps : forall m k,
  (forall p, p ∈ ps -> isTar p = true -> stackOf p <> k) ->
  fold_left addRootfs ps m !! k = m !! k.
Proof.
  induction ps as [|p ps IH]; intros m k Hother; [reflexivity|].
  cbn [fold_left]. rewrite IH.
  - unfold addRootfs. destruct (isTar p) eqn:Htar; [|reflexivity].
    apply lookup_insert_ne, (Hother p); [apply list_elem_of_here | exact Htar].
  - intros q Hq. apply Hother, list_elem_of_further, Hq.
Qed.

(** The entry of a name is the last visited tar path of that name. *)
Lemma fold_addRootfs_last before p after m :
  isTar p = true ->
  (forall q, q ∈ after -> isTar q = true -> stackOf q <> stackOf p) ->
  fold_left addRootfs (before ++ p :: after) m !! stackOf p = Some p.
Proof.
  intros Htar Hlast. rewrite fold_left_app. cbn [fold_left].
  rewrite (fold_addRootfs_other after _ _ Hlast).
  unfold addRootfs at 1. rewrite Htar. apply lookup_insert_eq.
Qed.

(** *** The stack name is the base name without the extension *)

Lemma bytes_of_bytes l : bytes (of_bytes l) = l.
Proof. apply list_ascii_of_string_of_list_ascii. Qed.

Lemma of_bytes_app l1 l2 : of_bytes (l1 ++ l2) = of_bytes l1 +:+ of_bytes l2.
Proof.
  induction l1 as [|c l1 IH]; [reflexivity|].
  cbn [app]. unfold of_bytes in *. cbn [string_of_list_ascii String.append].
  rewrite IH. reflexivity.
Qed.

Lemma isPrefix_app p l : isPrefix p (p ++ l) = true.
Proof.
  induction p as [|c p IH]; cbn; [reflexivity|]. rewrite Ascii.eqb_refl. exact IH.
Qed.

(** A non-empty result of the scan starts at a dot that only bytes other
    than separators follow. *)
Lemma extScan_found r : forall seen,
  extScan r seen <> [] ->
  exists a b, r = a ++ "."%char :: b /\
    Forall (fun c => IsPathSeparator c = false) a /\
    extScan r seen = "."%char :: rev a ++ seen.
Proof.
  induction r as [|c r IH]; intros seen H; cbn [extScan] in *; [contradiction|].
  destruct (IsPathSeparator c) eqn:Hsep; [contradiction|].
  destruct (Ascii.eqb c ".") eqn:Hdot.
  - apply Ascii.eqb_eq in Hdot as ->. exists [], r. repeat split. constructor.
  - destruct (IH _ H) as (a & b & -> & Ha & Hscan).
    exists (c :: a), b. split; [reflexivity|]. split; [constructor; assumption|].
    rewrite Hscan. cbn [rev]. rewrite <- app_assoc. reflexivity.
Qed.

Lemma dropSeparators_element a b :
  Forall (fun c => IsPathSeparator c = false) a ->
  dropSeparators (a ++ "."%char :: b) = a ++ "."%char :: b.
Proof.
  intros Ha. destruct Ha as [|c a Hc _]; cbn [app dropSeparators]; [reflexivity|].
  rewrite Hc. reflexivity.
Qed.

Lemma lastElement_element a b :
  Forall (fun c => IsPathSeparator c = false) a ->
  lastElement (a ++ "."%char :: b) = a ++ "."%char :: lastElement b.
Proof.
  induction 1 as [|c a Hc _ IH]; cbn [app lastElement]; [reflexivity|].
  rewrite Hc, IH. reflexivity.
Qed.

(** Where there is an extension, the base name is the stack name followed by
    the extension. *)
Lemma Base_is_stack_and_extension path :
  Ext path <> ""%string -> Base path = stackOf path +:+ Ext path.
Proof.
  intros Hext. unfold stackOf, TrimSuffix, HasSuffix.
  assert (extScan (rev (bytes path)) [] <> []) as Hscan.
  { intros Hnil. apply Hext. unfold Ext. rewrite Hnil. reflexivity. }
  destruct (extScan_found _ _ Hscan) as (a & b & Hrev & Ha & Hfound).
  rewrite app_nil_r in Hfound.
  assert (Ext path = of_bytes ("."%char :: rev a)) as ->.
  { unfold Ext. rewrite Hfound. reflexivity. }
  assert (Base path = of_bytes (rev (a ++ "."%char :: lastElement b))) as ->.
  { unfold Base. destruct path as [|c path].
    - destruct a; discriminate Hrev.
    - rewrite Hrev, (dropSeparators_element a b Ha), (lastElement_element a b Ha).
      destruct a; reflexivity. }
  rewrite !bytes_of_bytes, rev_involutive. cbn [rev]. rewrite rev_involutive.
  replace (List.length ("."%char :: rev a)) with (List.length (a ++ ["."%char]))
    by (cbn; rewrite length_app, length_rev; cbn; lia).
  change (a ++ "."%char :: lastElement b) with (a ++ ["."%char] ++ lastElement b).
  rewrite app_assoc, isPrefix_app, drop_app_length, <- of_bytes_app.
  f_equal. rewrite !rev_app_distr. reflexivity.
Qed.

Lemma isTar_has_extension path : isTar path = true -> Ext path <> ""%string.
Proof. unfold isTar. intros H Hnil. rewrite Hnil in H. discriminate H. Qed.

(** The extension of a tar path is one of the eight spellings of [.tar]. *)
Lemma isTar_spellings path :
  isTar path = true ->
  exists t a r, Ext path = String "." (String t (String a (String r EmptyString))) /\
    (t = "t" \/ t = "T")%char /\ (a = "a" \/ a = "A")%char /\ (r = "r" \/ r = "R")%char.
Proof.
  unfold isTar. destruct (Ext path) as [|d [|t [|a [|r [|x e]]]]]; cbn; try discriminate;
    try (rewrite ?andb_false_r; discriminate).
  intros H. apply andb_true_iff in H as [Hd H]. apply andb_true_iff in H as [Ht H].
  apply andb_true_iff in H as [Ha H]. apply andb_true_iff in H as [Hr _].
  exists t, a, r. repeat split.
  - f_equal. revert Hd. clear.
    destruct d as [[] [] [] [] [] [] [] []]; vm_compute; intros H;
      first [reflexivity | discriminate H].
  - revert Ht. clear.
    destruct t as [[] [] [] [] [] [] [] []]; vm_compute; intros H;
      first [left; reflexivity | right; reflexivity | discriminate H].
  - revert Ha. clear.
    destruct a as [[] [] [] [] [] [] [] []]; vm_compute; intros H;
      first [left; reflexivity | right; reflexivity | discriminate H].
  - revert Hr. clear.
    destruct r as [[] [] [] [] [] [] [] []]; vm_compute; intros H;
      first [left; reflexivity | right; reflexivity | discriminate H].
Qed.

(** Whatever the walk meets, a run in which every other step succeeds starts
    the group; an error of the walk leaves a line at debug level. *)
Lemma run_walk E cfg :
  configOf E = Some cfg ->
  (healthy E cfg -> groupOf (trace (run E).2) <> None) /\
  (reachesWalk E cfg ->
   (WalkDir extraRootfsFn (os_Lstat E) (ExtraRootfsDir cfg)
      (PreloadedRootFS_StackPathMap cfg)).2 <> None ->
   Logged DEBUG "missing-extra-rootfs" ∈ trace (run E).2).
Proof.
  intros Hcfg.
  apply (run_wp E cfg (fun r st =>
    (healthy E cfg -> groupOf (trace st) <> None) /\
    (reachesWalk E cfg ->
     (WalkDir extraRootfsFn (os_Lstat E) (ExtraRootfsDir cfg)
        (PreloadedRootFS_StackPathMap cfg)).2 <> None ->
     Logged DEBUG "missing-extra-rootfs" ∈ trace st)) Hcfg).
  wp_run.
  all: cbn [groupOf].
  all: split;
    [ try (intros _; discriminate);
      intros ((_ & Hvalid & Hid & Hmetron & (ems & Hexec) & Hbbs) & Hp1 & Hp2 & (ip & Hip) &
              Hlocket & Huuid & Htotal & Hjson & Hr1 & Hr2 & Hverify & Ht1 & Ht2);
      try (destruct (Split_separator _ _ Hp1) as [p1 Hs1]);
      try (destruct (Split_separator _ _ Hp2) as [p2 Hs2]);
      subst; try congruence;
      try match goal with
          | H : (CellID _ =? "")%string = true |- _ =>
              apply String.eqb_eq in H; contradiction
          | H : negb (ExecutorConfig_Validate _ _) = true |- _ =>
              rewrite Hvalid in H; discriminate H
          end
    | intros (Hvalid & Hid & Hmetron) Herr;
      try congruence;
      try match goal with
          | H : (CellID _ =? "")%string = true |- _ =>
              apply String.eqb_eq in H; contradiction
          | H : negb (ExecutorConfig_Validate _ _) = true |- _ =>
              rewrite Hvalid in H; discriminate H
          end;
      try in_list ].
Qed.

Lemma filesOf_pathsOf d : forall f, f ∈ filesOf d -> f ∈ pathsOf d.
Proof.
  induction d as [path | path readErr entries IH] using DirEntry_nested_ind; intros f.
  - intros H. exact H.
  - cbn [filesOf pathsOf]. intros Hf. apply list_elem_of_further.
    induction IH as [|d1 rest Hd1 _ IHrest]; [exact Hf|].
    cbn [flat_map] in *. apply elem_of_app in Hf as [Hf|Hf]; apply elem_of_app.
    + left. exact (Hd1 f Hf).
    + right. exact (IHrest Hf).
Qed.

(** Every consumer of the root-filesystem map is given the map as the walk
    left it. *)
Lemma run_rootFSMap E cfg :
  configOf E = Some cfg ->
  Forall (fun o => forall m, rootFSMapGiven o = Some m -> m = rootFSMapOf E cfg)
    (heap (run E).2).
Proof.
  intros Hcfg. apply Forall_lookup. intros i o Hi m Hm.
  destruct (run_lookup E i o Hi) as (cfg' & Hcfg' & Hw & _).
  assert (cfg' = cfg) as -> by congruence.
  destruct o; try discriminate Hm; injection Hm as ->;
    wiring_cases Hw; injection Hw; intros; subst; reflexivity.
Qed.

(** C10, as stated, fails: a tar file that the walk would reach after a
    directory it cannot read gets no entry, and startup goes on. *)
Lemma tar_after_unreadable_directory_gets_no_entry :
  let E := Sample.unreadable in
  let f := "/var/vcap/data/extra_rootfs/b.tar"%string in
  configOf E = Some Sample.config /\
  os_Lstat E (ExtraRootfsDir Sample.config) = inl Sample.unreadableTree /\
  f ∈ filesOf Sample.unreadableTree /\
  isTar f = true /\ stackOf f = "b"%string /\
  rootFSMapOf E Sample.config !! stackOf f = None /\
  serving (run E).2 = true.
Proof.
  cbn zeta. split; [reflexivity|]. split; [reflexivity|]. split.
  - cbn [Sample.unreadableTree filesOf flat_map app]. in_list.
  - split; [vm_compute; reflexivity|]. split; [vm_compute; reflexivity|].
    split; vm_compute; reflexivity.
Qed.

(** C10, amended.  A visit of a path whose extension is [.tar] in any
    spelling stores the path under its base name without the extension,
    whatever was stored there.  The map after the walk is the preloaded map
    with the visited paths added in the order of the walk, so that the entry
    of a name is the last visited tar path of that name; the walk visits
    every path of a tree that it can read, and nothing after the first
    directory that it cannot.  That map is the one handed to the executor,
    the allocator, the auction representative and the operation generator.
    An error of the walk is logged at debug level, and a run in which every
    other step succeeds starts the group all the same. *)
Theorem extra_rootfs_entries (E : Env) (cfg : RepConfig) :
  configOf E = Some cfg ->
  let walked := WalkDir extraRootfsFn (os_Lstat E) (ExtraRootfsDir cfg)
                  (PreloadedRootFS_StackPathMap cfg) in
  let paths := visitedFrom (os_Lstat E (ExtraRootfsDir cfg)) in
  (forall path m, isTar path = true ->
     extraRootfsFn path None m = (<[stackOf path := path]> m, None) /\
     (<[stackOf path := path]> m) !! stackOf path = Some path /\
     Base path = stackOf path +:+ Ext path /\
     exists t a r,
       Ext path = String "." (String t (String a (String r EmptyString))) /\
       (t = "t" \/ t = "T")%char /\ (a = "a" \/ a = "A")%char /\
       (r = "r" \/ r = "R")%char) /\
  (forall path m, isTar path = false -> extraRootfsFn path None m = (m, None)) /\
  walked.1 = fold_left addRootfs paths (PreloadedRootFS_StackPathMap cfg) /\
  (forall before p after,
     paths = before ++ p :: after -> isTar p = true ->
     (forall q, q ∈ after -> isTar q = true -> stackOf q <> stackOf p) ->
     walked.1 !! stackOf p = Some p) /\
  (forall d, os_Lstat E (ExtraRootfsDir cfg) = inl d -> readErrFree d ->
     walked.2 = None /\ paths = pathsOf d /\ forall f, f ∈ filesOf d -> f ∈ paths) /\
  Forall (fun o => forall m, rootFSMapGiven o = Some m -> m = walked.1) (heap (run E).2) /\
  (healthy E cfg -> serving (run E).2 = true) /\
  (reachesWalk E cfg -> walked.2 <> None ->
   Logged DEBUG "missing-extra-rootfs" ∈ trace (run E).2).
Proof.
  intros Hcfg walked paths.
  assert (walked.1 = fold_left addRootfs paths (PreloadedRootFS_StackPathMap cfg)) as Hfold
    by apply WalkDir_visited.
  destruct (run_walk E cfg Hcfg) as (Hhealthy & Hdebug).
  split; [|split; [|split; [|split; [|split; [|split; [|split]]]]]].
  - intros path m Htar. split; [|split; [|split]].
    + rewrite extraRootfsFn_visit. unfold addRootfs. rewrite Htar. reflexivity.
    + apply lookup_insert_eq.
    + apply Base_is_stack_and_extension, isTar_has_extension, Htar.
    + apply isTar_spellings, Htar.
  - intros path m Htar. rewrite extraRootfsFn_visit. unfold addRootfs.
    rewrite Htar. reflexivity.
  - exact Hfold.
  - intros before p after Hpaths Htar Hlast. rewrite Hfold, Hpaths.
    apply fold_addRootfs_last; assumption.
  - intros d Hd Hfree. unfold walked, paths, WalkDir, visitedFrom. rewrite Hd.
    rewrite walkDir_visited, (visited_readErrFree d Hfree). cbn [fst snd].
    split; [reflexivity|]. split; [reflexivity|]. apply filesOf_pathsOf.
  - exact (run_rootFSMap E cfg Hcfg).
  - intros Hh. unfold serving.
    destruct (groupOf (trace (run E).2)); [reflexivity|]. destruct (Hhealthy Hh); reflexivity.
  - exact Hdebug.
Qed.

Lemma sample_healthy : healthy Sample.good Sample.config.
Proof.
  unfold healthy, reachesRepURL.
  repeat split; try reflexivity; try discriminate; eexists; reflexivity.
Qed.

Lemma sample_unreadable_healthy : healthy Sample.unreadable Sample.config.
Proof.
  unfold healthy, reachesRepURL.
  repeat split; try reflexivity; try discriminate; eexists; reflexivity.
Qed.

Lemma extra_rootfs_entries_witness :
  rootFSMapOf Sample.good Sample.config !! "cflinuxfs4"%string
    = Some "/var/vcap/data/extra_rootfs/more/cflinuxfs4.tar"%string /\
  serving (run Sample.good).2 = true /\
  serving (run Sample.unreadable).2 = true /\
  Logged DEBUG "missing-extra-rootfs" ∈ trace (run Sample.unreadable).2.
Proof.
  destruct (extra_rootfs_entries Sample.good Sample.config eq_refl)
    as (_ & _ & _ & Hlast & _ & _ & Hserving & _).
  destruct (extra_rootfs_entries Sample.unreadable Sample.config eq_refl)
    as (_ & _ & _ & _ & _ & _ & Hserving' & Hdebug).
  split; [|split; [|split]].
  - apply (Hlast ["/var/vcap/data/extra_rootfs"; "/var/vcap/data/extra_rootfs/README";
                  "/var/vcap/data/extra_rootfs/jammy.TAR";
                  "/var/vcap/data/extra_rootfs/more"]%string
             "/var/vcap/data/extra_rootfs/more/cflinuxfs4.tar"%string []).
    + vm_compute. reflexivity.
    + vm_compute. reflexivity.
    + intros q Hq. apply elem_of_nil in Hq. contradiction.
  - apply Hserving. exact sample_healthy.
  - apply Hserving'. exact sample_unreadable_healthy.
  - apply Hdebug.
    + unfold reachesWalk. repeat split; [discriminate].
    + vm_compute. discriminate.
Defined.

(** ** [verifyCertificate] *)

Section VerifyCertificateFacts.
Variable L : CertLib.

(** The fuel that [verifyCertificate] gives to the decoding loop is
    enough. *)
Lemma decodeBlocks_fuel fuel : forall data acc,
  (List.length data < fuel)%nat -> decodeBlocks L fuel data acc <> None.
Proof.
  induction fuel as [|fuel IH]; intros data acc Hlen; [lia|].
  cbn [decodeBlocks]. destruct (pem_Decode L data) as [[block n]|]; [|discriminate].
  destruct (drop (S n) data) as [|c rest] eqn:Hrest; [discriminate|].
  apply IH. pose proof (length_drop data (S n)) as Hdrop.
  rewrite Hrest in Hdrop. cbn [List.length] in *. lia.
Qed.

Lemma decodeBlocks_sound fuel : forall data acc out,
  decodeBlocks L fuel data acc = Some (Some out) ->
  exists blocks, DecodesTo L data blocks /\ out = acc ++ bodies blocks.
Proof.
  induction fuel as [|fuel IH]; intros data acc out H; [discriminate|].
  cbn [decodeBlocks] in H.
  destruct (pem_Decode L data) as [[block n]|] eqn:Hd; [|discriminate].
  destruct (drop (S n) data) as [|c rest] eqn:Hrest.
  - injection H as <-. exists [block]. split.
    + eapply decodes_last; eassumption.
    + unfold bodies. cbn. rewrite app_nil_r. reflexivity.
  - destruct (IH _ _ _ H) as (blocks & Hblocks & ->).
    exists (block :: blocks). split.
    + eapply decodes_more; [eassumption| |]; rewrite Hrest; [discriminate|exact Hblocks].
    + unfold bodies. cbn [map List.concat]. rewrite app_assoc. reflexivity.
Qed.

Lemma decodeBlocks_complete data blocks :
  DecodesTo L data blocks ->
  forall fuel acc, (List.length data < fuel)%nat ->
    decodeBlocks L fuel data acc = Some (Some (acc ++ bodies blocks)).
Proof.
  induction 1 as [data block n Hd Hrest | data block n blocks Hd Hrest _ IH];
    intros fuel acc Hlen; (destruct fuel as [|fuel]; [lia|]);
    cbn [decodeBlocks]; rewrite Hd.
  - rewrite Hrest. unfold bodies. cbn. rewrite app_nil_r. reflexivity.
  - destruct (drop (S n) data) as [|c rest] eqn:Hdrop; [contradiction|].
    rewrite IH.
    + unfold bodies. cbn [map List.concat]. rewrite app_assoc. reflexivity.
    + pose proof (length_drop data (S n)) as Hlen'.
      rewrite Hdrop in Hlen'. cbn [List.length] in *. lia.
Qed.

Lemma decodeBlocks_failure fuel : forall data acc,
  decodeBlocks L fuel data acc = Some None -> ~ exists blocks, DecodesTo L data blocks.
Proof.
  induction fuel as [|fuel IH]; intros data acc H; [discriminate|].
  cbn [decodeBlocks] in H. intros (blocks & Hblocks).
  destruct Hblocks as [data block n Hd Hrest | data block n blocks Hd Hrest Hmore];
    rewrite Hd in H.
  - rewrite Hrest in H. discriminate.
  - destruct (drop (S n) data) as [|c rest] eqn:Hdrop; [contradiction|].
    apply (IH _ _ H). exists blocks. exact Hmore.
Qed.

(** [x509.ParseCertificates] always answers, and answers an empty slice
    for an empty input only. *)
Lemma parseCertificatesLoop_fuel fuel : forall der certs,
  (List.length der <= fuel)%nat -> parseCertificatesLoop L fuel der certs <> None.
Proof.
  induction fuel as [|fuel IH]; intros der certs Hlen.
  - destruct der; [discriminate|cbn in Hlen; lia].
  - destruct der as [|c der]; [discriminate|]. cbn [parseCertificatesLoop].
    destruct (parseCertificate L (c :: der)) as [[cert n]|err]; [|discriminate].
    apply IH. rewrite length_drop. cbn [List.length] in *. lia.
Qed.

Lemma parseCertificatesLoop_grows fuel : forall der certs out,
  parseCertificatesLoop L fuel der certs = Some (inl out) ->
  (List.length certs <= List.length out)%nat /\
  (der <> [] -> (List.length certs < List.length out)%nat).
Proof.
  induction fuel as [|fuel IH]; intros der certs out H.
  - destruct der; [|discriminate]. injection H as <-. split; [lia|contradiction].
  - destruct der as [|c der]; [injection H as <-; split; [lia|contradiction]|].
    cbn [parseCertificatesLoop] in H.
    destruct (parseCertificate L (c :: der)) as [[cert n]|err]; [|discriminate].
    destruct (IH _ _ _ H) as [Hle _]. rewrite length_app in Hle. cbn in Hle.
    split; [lia|intros _; lia].
Qed.

Lemma ParseCertificates_answers der : ParseCertificates L der <> None.
Proof. apply parseCertificatesLoop_fuel. lia. Qed.

Lemma ParseCertificates_empty : ParseCertificates L [] = Some (inl []).
Proof. reflexivity. Qed.

Lemma ParseCertificates_none_only_from_empty der :
  ParseCertificates L der = Some (inl []) -> der = [].
Proof.
  intros H. destruct der as [|c der]; [reflexivity|].
  destruct (parseCertificatesLoop_grows _ _ _ _ H) as [_ Hlt].
  specialize (Hlt ltac:(discriminate)). cbn in Hlt. lia.
Qed.

Lemma bodies_empty blocks :
  bodies blocks = [] <-> Forall (fun b => Bytes b = []) blocks.
Proof.
  unfold bodies. induction blocks as [|b blocks IH]; cbn [map List.concat].
  - split; [constructor|reflexivity].
  - split.
    + intros H. apply app_eq_nil in H as [Hb Hrest]. constructor; [exact Hb|].
      apply IH, Hrest.
    + intros H. apply Forall_cons in H as [Hb Hrest]. rewrite Hb. apply IH, Hrest.
Qed.

End VerifyCertificateFacts.

Lemma Equal_loopback ip :
  Net.Equal ip Net.loopback = true <-> ip = [127; 0; 0; 1]%N \/ ip = Net.loopback.
Proof.
  unfold Net.Equal, Net.bytesEqual. change (List.length Net.loopback) with 16%nat.
  destruct (List.length ip =? 16)%nat eqn:H16.
  - rewrite bool_decide_eq_true. split; [auto|].
    intros [-> | ->]; [discriminate H16|reflexivity].
  - destruct (List.length ip =? 4)%nat eqn:H4; cbn [andb Nat.eqb].
    + rewrite (bool_decide_eq_true_2 (take 12 Net.loopback = Net.v4InV6Prefix)) by reflexivity.
      cbn [andb]. rewrite bool_decide_eq_true. split; [auto|].
      intros [-> | ->]; [reflexivity|discriminate H16].
    + split; [discriminate|]. intros [-> | ->]; [discriminate H4|discriminate H16].
Qed.

Lemma hasLoopback_iff cert :
  hasLoopback cert = true <->
  exists ip, ip ∈ IPAddresses cert /\ (ip = [127; 0; 0; 1]%N \/ ip = Net.loopback).
Proof.
  unfold hasLoopback. rewrite existsb_exists. split.
  - intros (ip & Hin & Heq). exists ip. split; [apply list_elem_of_In, Hin|].
    apply Equal_loopback, Heq.
  - intros (ip & Hin & Heq). exists ip. split; [apply list_elem_of_In, Hin|].
    apply Equal_loopback, Heq.
Qed.

(** The outcome of [verifyCertificate], step by step. *)
Lemma verifyOutcome_unfold L file :
  verifyOutcome L file =
  match os_ReadFile L file with
  | inr err => Ret (Some err)
  | inl data =>
      match decodeBlocks L (S (List.length (trimmed L data))) (trimmed L data) [] with
      | None => Panic "unreachable"
      | Some None => Ret (Some (Err "failed parsing cert"))
      | Some (Some blocks) =>
          match ParseCertificates L blocks with
          | None => Panic "unreachable"
          | Some (inr err) =>
              Ret (Some (Err ("failed parsing cert: " +:+ errorString err)))
          | Some (inl []) => Panic outOfRange
          | Some (inl (cert0 :: _)) =>
              Ret (if hasLoopback cert0 then None else Some invalidSAN)
          end
      end
  end.
Proof.
  unfold verifyOutcome, verifyCertificate, bind, emit, ret, panic, index, st0, trimmed.
  cbn [heap trace app fst snd].
  destruct (os_ReadFile L file) as [data|err]; [|reflexivity].
  lazymatch goal with
  | |- context [decodeBlocks ?a ?b ?c ?d] =>
      destruct (decodeBlocks a b c d) as [[blocks|]|]
  end; try reflexivity.
  destruct (ParseCertificates L blocks) as [[certs|err]|]; try reflexivity.
  destruct certs as [|cert0 certs]; [reflexivity|]. cbn.
  destruct (hasLoopback cert0); reflexivity.
Qed.

(** The outcome on a file that decodes to [blocks]. *)
Lemma verifyOutcome_decoded L file data blocks :
  os_ReadFile L file = inl data ->
  DecodesTo L (trimmed L data) blocks ->
  verifyOutcome L file =
  match ParseCertificates L (bodies blocks) with
  | None => Panic "unreachable"
  | Some (inr err) => Ret (Some (Err ("failed parsing cert: " +:+ errorString err)))
  | Some (inl []) => Panic outOfRange
  | Some (inl (cert0 :: _)) => Ret (if hasLoopback cert0 then None else Some invalidSAN)
  end.
Proof.
  intros Hread Hblocks. rewrite verifyOutcome_unfold, Hread.
  rewrite (decodeBlocks_complete L _ _ Hblocks) by lia. reflexivity.
Qed.

(** C8.  [verifyCertificate] returns the error of an unreadable file, returns
    an error when the content does not decode as PEM blocks or when the
    decoded bytes do not parse as certificates, and otherwise returns nil
    exactly when an IP SAN of the first certificate is 127.0.0.1, an error
    when none is.  It panics, with an index out of range, exactly when the
    file is readable and consists solely of PEM blocks with empty bodies:
    [x509.ParseCertificates] then answers an empty slice without an error.
    Those are all its outcomes. *)
Theorem verifyCertificate_outcomes (L : CertLib) (file : string) :
  let outcome := verifyOutcome L file in
  (forall s, verifyCertificate L file s
             = (outcome, mkSt (heap s) (trace s ++ [CertificateChecked file]))) /\
  (forall err, os_ReadFile L file = inr err -> outcome = Ret (Some err)) /\
  (forall data, os_ReadFile L file = inl data ->
     (~ (exists blocks, DecodesTo L (trimmed L data) blocks) ->
      outcome = Ret (Some (Err "failed parsing cert"))) /\
     (forall blocks, DecodesTo L (trimmed L data) blocks ->
        match ParseCertificates L (bodies blocks) with
        | Some (inr err) =>
            outcome = Ret (Some (Err ("failed parsing cert: " +:+ errorString err)))
        | Some (inl []) => outcome = Panic outOfRange
        | Some (inl (cert0 :: _)) =>
            outcome = Ret (if hasLoopback cert0 then None else Some invalidSAN)
        | None => False
        end) /\
     (forall blocks, DecodesTo L (trimmed L data) blocks ->
        Forall (fun b => Bytes b = []) blocks ->
        ParseCertificates L (bodies blocks) = Some (inl []) /\
        outcome = Panic outOfRange)) /\
  (forall v, outcome = Panic v ->
     v = outOfRange /\
     exists data blocks,
       os_ReadFile L file = inl data /\ DecodesTo L (trimmed L data) blocks /\
       Forall (fun b => Bytes b = []) blocks) /\
  (forall cert, hasLoopback cert = true <->
     exists ip, ip ∈ IPAddresses cert /\ (ip = [127; 0; 0; 1]%N \/ ip = Net.loopback)).
Proof.
  cbn zeta. split; [|split; [|split; [|split]]].
  - intros s. apply verifyCertificate_run.
  - intros err Hread. rewrite verifyOutcome_unfold, Hread. reflexivity.
  - intros data Hread. split; [|split].
    + intros Hnone. rewrite verifyOutcome_unfold, Hread.
      destruct (decodeBlocks L _ (trimmed L data) []) as [[out|]|] eqn:Hd.
      * exfalso. apply Hnone. destruct (decodeBlocks_sound L _ _ _ _ Hd) as (bs & Hbs & _).
        exists bs. exact Hbs.
      * reflexivity.
      * exfalso. apply (decodeBlocks_fuel L _ _ [] (Nat.lt_succ_diag_r _) Hd).
    + intros blocks Hblocks. rewrite (verifyOutcome_decoded L file data blocks Hread Hblocks).
      pose proof (ParseCertificates_answers L (bodies blocks)) as Hanswers.
      destruct (ParseCertificates L (bodies blocks)) as [[[|cert0 certs]|err]|];
        first [reflexivity | contradiction].
    + intros blocks Hblocks Hempty.
      rewrite (verifyOutcome_decoded L file data blocks Hread Hblocks).
      apply bodies_empty in Hempty. rewrite Hempty. split; reflexivity.
  - intros v Hpanic. rewrite verifyOutcome_unfold in Hpanic.
    destruct (os_ReadFile L file) as [data|err] eqn:Hread; [|discriminate].
    destruct (decodeBlocks L _ (trimmed L data) []) as [[out|]|] eqn:Hd.
    + destruct (decodeBlocks_sound L _ _ _ _ Hd) as (bs & Hbs & ->). cbn [app] in Hpanic.
      pose proof (ParseCertificates_answers L (bodies bs)) as Hanswers.
      destruct (ParseCertificates L (bodies bs)) as [[[|cert0 certs]|err]|] eqn:Hparse;
        try discriminate Hpanic; [|contradiction].
      injection Hpanic as <-. split; [reflexivity|].
      exists data, bs. split; [reflexivity|]. split; [exact Hbs|].
      apply bodies_empty, (ParseCertificates_none_only_from_empty L), Hparse.
    + discriminate.
    + exfalso. apply (decodeBlocks_fuel L _ _ [] (Nat.lt_succ_diag_r _) Hd).
  - apply hasLoopback_iff.
Qed.

Lemma verifyCertificate_outcomes_witness :
  verifyOutcome (Sample.certs (inl (bytes "EE"))) "tls.crt" = Panic outOfRange /\
  verifyOutcome (Sample.certs (inl (bytes "L"))) "tls.crt" = Ret None /\
  verifyOutcome (Sample.certs (inl (bytes "N"))) "tls.crt" = Ret (Some invalidSAN) /\
  verifyOutcome (Sample.certs (inl (bytes "L!"))) "tls.crt"
    = Ret (Some (Err "failed parsing cert")) /\
  verifyOutcome (Sample.certs (inr (Err "no such file"))) "tls.crt"
    = Ret (Some (Err "no such file")).
Proof.
  split; [|split; [|split; [|split]]].
  - destruct (verifyCertificate_outcomes (Sample.certs (inl (bytes "EE"))) "tls.crt")
      as (_ & _ & H & _).
    destruct (H (bytes "EE") eq_refl) as (_ & _ & Hempty).
    apply (Hempty [mkBlock []; mkBlock []]).
    + eapply decodes_more; [reflexivity | discriminate | eapply decodes_last; reflexivity].
    + repeat constructor.
  - destruct (verifyCertificate_outcomes (Sample.certs (inl (bytes "L"))) "tls.crt")
      as (_ & _ & H & _).
    destruct (H (bytes "L") eq_refl) as (_ & Hdecoded & _).
    apply (Hdecoded [mkBlock (bytes "L")]).
    eapply decodes_last; reflexivity.
  - destruct (verifyCertificate_outcomes (Sample.certs (inl (bytes "N"))) "tls.crt")
      as (_ & _ & H & _).
    destruct (H (bytes "N") eq_refl) as (_ & Hdecoded & _).
    apply (Hdecoded [mkBlock (bytes "N")]).
    eapply decodes_last; reflexivity.
  - destruct (verifyCertificate_outcomes (Sample.certs (inl (bytes "L!"))) "tls.crt")
      as (_ & _ & H & _).
    destruct (H (bytes "L!") eq_refl) as (Hnone & _ & _).
    apply Hnone. intros (blocks & Hblocks).
    inversion Hblocks as [d b n Hd Hrest | d b n bs Hd Hrest Hmore]; subst.
    + vm_compute in Hd. injection Hd as <- <-. vm_compute in Hrest. discriminate Hrest.
    + vm_compute in Hd. injection Hd as <- <-.
      inversion Hmore as [d b n Hd Hrest' | d b n bs' Hd Hrest' Hmore'];
        vm_compute in Hd; discriminate Hd.
  - destruct (verifyCertificate_outcomes (Sample.certs (inr (Err "no such file"))) "tls.crt")
      as (_ & Hread & _).
    apply Hread. reflexivity.
Defined.

(** * Further properties of [main.go] *)

(** ** Splitting and the host name *)

Lemma Split_nonempty s sep : Split s sep <> [].
Proof.
  pose proof (Split_length s sep) as H. destruct (Split s sep); [cbn in H; lia|discriminate].
Qed.

Lemma Join_cons f fields sep :
  fields <> [] -> Join (f :: fields) sep = f +:+ String sep (Join fields sep).
Proof. destruct fields; [contradiction|reflexivity]. Qed.

(** X1.  Splitting loses nothing: joining the fields of [strings.Split] with
    the separator gives the string back; there is one field more than there
    are separators, and no field holds a separator. *)
Theorem Split_round_trip (s : string) (sep : ascii) :
  Join (Split s sep) sep = s /\
  List.length (Split s sep) = S (CountByte s sep) /\
  Forall (fun f => ContainsByte f sep = false) (Split s sep).
Proof.
  induction s as [|c s (IHjoin & IHlen & IHfields)]; cbn [Split CountByte].
  - repeat split. repeat constructor.
  - destruct (Ascii.eqb c sep) eqn:Hc.
    + split; [|split].
      * rewrite (Join_cons _ _ _ (Split_nonempty s sep)), IHjoin.
        apply Ascii.eqb_eq in Hc as ->. reflexivity.
      * cbn [List.length]. rewrite IHlen. reflexivity.
      * constructor; [reflexivity|exact IHfields].
    + pose proof (Split_nonempty s sep) as Hne.
      destruct (Split s sep) as [|h t]; [contradiction|].
      split; [|split].
      * rewrite <- IHjoin. destruct t; reflexivity.
      * cbn [List.length] in *. rewrite IHlen. reflexivity.
      * apply Forall_cons in IHfields as [Hh Ht]. constructor; [|exact Ht].
        cbn [ContainsByte]. rewrite Hc, Hh. reflexivity.
Qed.

Lemma Split_first s sep : Split s sep !! 0%nat = Some (firstField s sep).
Proof.
  induction s as [|c s IH]; cbn [Split firstField]; [reflexivity|].
  destruct (Ascii.eqb c sep); [reflexivity|].
  destruct (Split s sep) as [|h t]; [discriminate IH|].
  injection IH as ->. reflexivity.
Qed.

(** Element 1 of an address is what lies between its first separator and
    the next one. *)
Lemma Split_second host rest sep :
  ContainsByte host sep = false ->
  Split (host +:+ String sep rest) sep !! 1%nat = Some (firstField rest sep).
Proof.
  induction host as [|c host IH]; simpl.
  - intros _. rewrite Ascii.eqb_refl. apply Split_first.
  - intros H. apply orb_false_iff in H as [-> Hhost]. specialize (IH Hhost).
    destruct (Split (host +:+ String sep rest) sep) as [|h t]; [discriminate IH|].
    exact IH.
Qed.

Lemma firstField_no_separator s sep :
  ContainsByte (firstField s sep) sep = false /\
  (ContainsByte s sep = false -> firstField s sep = s).
Proof.
  induction s as [|c s [IH1 IH2]]; cbn [firstField ContainsByte]; [split; reflexivity|].
  destruct (Ascii.eqb c sep) eqn:Hc; cbn [ContainsByte orb].
  - split; [reflexivity|discriminate].
  - rewrite Hc. cbn [orb]. split; [exact IH1|]. intros H. rewrite (IH2 H). reflexivity.
Qed.

(** X2.  [repHost] leaves no underscore in the host name, keeps its length,
    changes nothing in a cell id without underscores and changes nothing
    when applied again. *)
Theorem repHost_has_no_underscore (cellID : string) :
  ContainsByte (repHost cellID) "_" = false /\
  String.length (repHost cellID) = String.length cellID /\
  (ContainsByte cellID "_" = false -> repHost cellID = cellID) /\
  repHost (repHost cellID) = repHost cellID.
Proof.
  unfold repHost.
  induction cellID as [|c s (IH1 & IH2 & IH3 & IH4)];
    cbn [ReplaceByte ContainsByte String.length]; [repeat split|].
  destruct (Ascii.eqb c "_") eqn:Hc; cbn [ReplaceByte ContainsByte orb];
    change (Ascii.eqb "-" "_") with false; rewrite ?Hc; cbn [orb];
    rewrite IH1, IH2, IH4; repeat split; try discriminate.
  intros H. rewrite (IH3 H). reflexivity.
Qed.

Lemma repHost_has_no_underscore_witness :
  ContainsByte (repHost "cell_z1_0") "_" = false /\
  repHost "cell-z1-0" = "cell-z1-0"%string.
Proof.
  split.
  - apply (proj1 (repHost_has_no_underscore "cell_z1_0")).
  - apply (proj1 (proj2 (proj2 (repHost_has_no_underscore "cell-z1-0")))). reflexivity.
Defined.

(** ** The advertised URL and address *)

(** X3.  For a securable listen address [host:rest] with no colon in [host],
    [repURL] returns, without touching the store, the URL made of the host
    name of the cell, the advertised domain and, as port, the bytes of
    [rest] before its next colon: all of [rest] when it has none, and
    nothing when [rest] starts with a colon, as after the first colon of a
    bracketed IPv6 address. *)
Theorem repURL_of_host_and_port (config : RepConfig) (host rest : string) (s : St) :
  ListenAddrSecurable config = host +:+ String ":" rest ->
  hasColon host = false ->
  repURL config s
    = (Ret ("https://" +:+ repHost (CellID config) +:+ "." +:+ AdvertiseDomain config
              +:+ ":" +:+ firstField rest ":"), s) /\
  hasColon (firstField rest ":") = false /\
  (hasColon rest = false -> firstField rest ":" = rest) /\
  (forall rest', rest = String ":" rest' -> firstField rest ":" = ""%string).
Proof.
  intros Haddr Hhost. unfold hasColon in *.
  destruct (firstField_no_separator rest ":") as [Hfield Hall].
  split; [|split; [exact Hfield|split; [exact Hall|]]].
  - unfold repURL, index, bind, ret. rewrite Haddr, (Split_second _ _ _ Hhost). reflexivity.
  - intros rest' ->. reflexivity.
Qed.

Lemma repURL_of_host_and_port_witness :
  repURL Sample.config st0
    = (Ret "https://cell-z1-0.cell.service.cf.internal:1801"%string, st0) /\
  repURL (Sample.configWith "cell_z1_0" "0.0.0.0:1800" "[::]:1801") st0
    = (Ret "https://cell-z1-0.cell.service.cf.internal:"%string, st0).
Proof.
  split.
  - apply (repURL_of_host_and_port Sample.config "0.0.0.0" "1801" st0); reflexivity.
  - apply (repURL_of_host_and_port (Sample.configWith "cell_z1_0" "0.0.0.0:1800" "[::]:1801")
             "[" ":]:1801" st0); reflexivity.
Defined.

(** X4.  [repAddress] asks for the local IP before it looks at the listen
    address: when the IP cannot be fetched it logs the fatal line and panics,
    whatever the address; otherwise, for a listen address [host:rest] with no
    colon in [host], it returns the address made of the IP and the bytes of
    [rest] before its next colon and leaves the store as it was. *)
Theorem repAddress_of_ip_and_port (E : Env) (config : RepConfig) (s : St) :
  (forall err, localip_LocalIP E = inr err ->
     repAddress E config s
       = (Panic "failed-to-fetch-ip",
          mkSt (heap s) (trace s ++ [Logged FATAL "failed-to-fetch-ip"]))) /\
  (forall ip host rest,
     localip_LocalIP E = inl ip ->
     ListenAddr config = host +:+ String ":" rest ->
     hasColon host = false ->
     repAddress E config s = (Ret ("http://" +:+ ip +:+ ":" +:+ firstField rest ":"), s)) /\
  (forall ip, localip_LocalIP E = inl ip -> hasColon (ListenAddr config) = false ->
     repAddress E config s = (Panic "runtime error: index out of range", s)).
Proof.
  unfold repAddress, index, bind, ret, logFatal, log, emit, panic.
  split; [|split].
  - intros err ->. reflexivity.
  - intros ip host rest -> Haddr Hhost. unfold hasColon in Hhost.
    rewrite Haddr, (Split_second _ _ _ Hhost). reflexivity.
  - intros ip -> Hno. rewrite (no_port _ Hno). reflexivity.
Qed.

Lemma repAddress_of_ip_and_port_witness :
  repAddress Sample.good Sample.config st0 = (Ret "http://10.0.16.4:1800"%string, st0) /\
  repAddress Sample.noPort (Sample.configWith "cell_z1_0" "0.0.0.0" "0.0.0.0:1801") st0
    = (Panic "runtime error: index out of range", st0).
Proof.
  split.
  - apply (proj1 (proj2 (repAddress_of_ip_and_port Sample.good Sample.config st0))
             "10.0.16.4" "0.0.0.0" "1800")%string; reflexivity.
  - apply (proj2 (proj2 (repAddress_of_ip_and_port Sample.noPort
             (Sample.configWith "cell_z1_0" "0.0.0.0" "0.0.0.0:1801") st0)) "10.0.16.4"%string);
      reflexivity.
Defined.

(** ** The initializers *)

(** X5.  [initializeCellPresence] builds the presence runner only when the
    locket client, the guid, the executor's resources and the encoding of
    the presence all succeed; it then builds nothing else and logs the
    payload at debug level.  When one of them fails it builds nothing, logs
    one fatal line and panics with it. *)
Theorem initializeCellPresence_all_or_nothing (E : Env) (address : string)
    (executorClient : ref) (repConfig : RepConfig) (names : list string)
    (repUrl : string) (s : St) :
  let r := initializeCellPresence E address executorClient repConfig names repUrl s in
  let allGood :=
    locket_NewClient E = None /\ uuid_NewV4 E = None /\
    executor_TotalResources E = None /\ json_Marshal E = None in
  (allGood ->
   r = (Ret (List.length (heap s)),
        mkSt (heap s ++ [PresenceRunner (CellID repConfig) address repUrl names])
          (trace s ++ [Logged DEBUG "presence-payload"]))) /\
  (~ allGood ->
   heap r.2 = heap s /\
   exists action,
     r.1 = Panic action /\ trace r.2 = trace s ++ [Logged FATAL action] /\
     action ∈ ["failed-to-construct-locket-client"; "failed-to-generate-guid";
               "failed-to-get-total-resources"; "failed-to-encode-cell-presence"]%string).
Proof.
  cbn zeta.
  unfold initializeCellPresence, fatalIf, logFatal, log, bind, emit, new, panic, ret.
  destruct (locket_NewClient E) as [e1|]; cbn [heap trace fst snd].
  { split; [intros (H & _); discriminate H|]. intros _. split; [reflexivity|].
    eexists. repeat split. in_list. }
  destruct (uuid_NewV4 E) as [e2|]; cbn [heap trace fst snd].
  { split; [intros (_ & H & _); discriminate H|]. intros _. split; [reflexivity|].
    eexists. repeat split. in_list. }
  destruct (executor_TotalResources E) as [e3|]; cbn [heap trace fst snd].
  { split; [intros (_ & _ & H & _); discriminate H|]. intros _. split; [reflexivity|].
    eexists. repeat split. in_list. }
  destruct (json_Marshal E) as [e4|]; cbn [heap trace fst snd].
  { split; [intros (_ & _ & _ & H); discriminate H|]. intros _. split; [reflexivity|].
    eexists. repeat split. in_list. }
  split; [intros _; reflexivity|]. intros Hn. exfalso. apply Hn. repeat split.
Qed.

Lemma initializeCellPresence_all_or_nothing_witness :
  initializeCellPresence Sample.good "http://10.0.16.4:1800" 1 Sample.config
    ["cflinuxfs4"]%string "https://cell-z1-0.cell.service.cf.internal:1801" st0
  = (Ret 0%nat,
     mkSt [PresenceRunner "cell_z1_0" "http://10.0.16.4:1800"
             "https://cell-z1-0.cell.service.cf.internal:1801" ["cflinuxfs4"]%string]
       [Logged DEBUG "presence-payload"]).
Proof.
  apply (proj1 (initializeCellPresence_all_or_nothing Sample.good "http://10.0.16.4:1800" 1
                  Sample.config ["cflinuxfs4"]%string
                  "https://cell-z1-0.cell.service.cf.internal:1801" st0)).
  repeat split.
Defined.

(** X6.  [initializeServer] builds the handlers first and the server last.
    When the router, the certificate check (made for the server that is not
    network accessible only) and the TLS configuration all pass, the server
    listens on the securable address if it is network accessible and on the
    plain listen address otherwise, and it is the handlers just built that it
    serves.  When one of them fails the handlers are all that was built and
    the call panics.  For the network-accessible server the certificate is
    not checked at all. *)
Theorem initializeServer_builds (E : Env) (auctionCellRep executorClient : ref)
    (evacuatable : Cap) (requestMetrics : ref) (repConfig : RepConfig)
    (networkAccessible : bool) (s : St) :
  let r := initializeServer E auctionCellRep executorClient evacuatable requestMetrics
             repConfig networkAccessible s in
  let handlers := Handlers auctionCellRep executorClient evacuatable requestMetrics
                    networkAccessible in
  let passes :=
    rata_NewRouter E networkAccessible = None /\
    (networkAccessible = false ->
     verifyOutcome (certLib E) (CertFile repConfig) = Ret None) /\
    tlsconfig_Build E networkAccessible = None in
  (passes ->
   r.1 = Ret (S (List.length (heap s))) /\
   heap r.2 = heap s ++
     [handlers;
      TLSServer (if networkAccessible then ListenAddrSecurable repConfig
                 else ListenAddr repConfig)
        (NewRoutes networkAccessible) (List.length (heap s))]) /\
  (~ passes -> isPanic r.1 = true /\ heap r.2 = heap s ++ [handlers]) /\
  (networkAccessible = true ->
   certificateChecks (trace r.2) = certificateChecks (trace s)) /\
  (networkAccessible = false ->
   rata_NewRouter E false = None ->
   certificateChecks (trace r.2)
   = certificateChecks (trace s) ++ [CertificateChecked (CertFile repConfig)]).
Proof.
  cbn zeta. destruct networkAccessible.
  all: lazymatch goal with
       | |- context [(initializeServer ?a ?b ?c ?d ?e ?f ?g ?st).1] =>
           let m := constr:(initializeServer a b c d e f g) in
           pattern (m st).1, (m st).2;
           lazymatch goal with |- ?Q _ _ => change (wp m Q st) end
       end.
  all: repeat wp_step.
  all: try match goal with
           | H : verifyOutcome _ _ = Exit _ |- _ =>
               exfalso; exact (verifyOutcome_no_exit _ _ _ H)
           end.
  all: subst; cbn [isPanic].
  all: unfold certificateChecks;
    rewrite ?List.filter_app; cbn [List.filter isCertificateChecked]; rewrite ?app_nil_r.
  all: rewrite <- ?app_assoc, ?length_app; cbn [app List.length]; rewrite ?Nat.add_1_r.
  all: intuition (try discriminate; try congruence; try reflexivity).
Qed.

Lemma initializeServer_builds_witness :
  let r := initializeServer Sample.good 9 1 (mkCap 3 Evacuatable) 10 Sample.config true st0 in
  r.1 = Ret 1%nat /\
  heap r.2 = [Handlers 9 1 (mkCap 3 Evacuatable) 10 true;
              TLSServer "0.0.0.0:1801" (NewRoutes true) 0].
Proof.
  apply (proj1 (initializeServer_builds Sample.good 9 1 (mkCap 3 Evacuatable) 10
                  Sample.config true st0)).
  split; [reflexivity|]. split; [discriminate|reflexivity].
Defined.

(** ** What the components are wired to *)

(** X7.  The zone flag, when given, replaces the zone of the configuration
    file before anything is built: the executor client and the operation
    generator are given the flag's zone if it is not empty and the
    configured one otherwise. *)
Theorem zone_flag_overrides (E : Env) (c : RepConfig) (i : ref) (o : Obj) (zone : string) :
  config_NewRepConfig E (flag_config E) = inl c ->
  heap (run E).2 !! i = Some o ->
  zoneGiven o = Some zone ->
  zone = if String.eqb (flag_zone E) "" then Zone c else flag_zone E.
Proof.
  intros Hc Hi Hz.
  destruct (run_lookup E i o Hi) as (cfg & Hcfg & Hw & _).
  unfold configOf in Hcfg. rewrite Hc in Hcfg. injection Hcfg as <-.
  destruct o; try discriminate Hz; injection Hz as <-;
    wiring_cases Hw; injection Hw; intros; subst;
    destruct (String.eqb (flag_zone E) ""); reflexivity.
Qed.

Lemma zone_flag_overrides_witness :
  let o := ExecutorClient "cell_z1_0" "z2" (rootFSMapOf MoreSamples.zoned Sample.config)
             (sidecarOf MoreSamples.zoned Sample.config) 0 in
  heap (run MoreSamples.zoned).2 !! 1%nat = Some o /\
  "z2"%string = if String.eqb (flag_zone MoreSamples.zoned) ""
                then Zone Sample.config else flag_zone MoreSamples.zoned.
Proof.
  intros o.
  assert (heap (run MoreSamples.zoned).2 !! 1%nat = Some o) as Ho
    by (vm_compute; reflexivity).
  split; [exact Ho|].
  exact (zone_flag_overrides MoreSamples.zoned Sample.config 1 o "z2" eq_refl Ho eq_refl).
Defined.

Lemma rangeFirst_of_map start (m : gmap string string) :
  (m = ∅ -> rangeFirst start m = None) /\
  (m <> ∅ -> exists stack path, rangeFirst start m = Some path /\ m !! stack = Some path).
Proof.
  unfold rangeFirst. split.
  - intros ->. rewrite map_to_list_empty. reflexivity.
  - intros Hne.
    assert (map_to_list m <> []) as Hl by (intros H; apply map_to_list_empty_iff in H; auto).
    assert (start mod List.length (map_to_list m) < List.length (map_to_list m))%nat as Hlt.
    { apply Nat.mod_upper_bound. destruct (map_to_list m); [contradiction|cbn; lia]. }
    apply lookup_lt_is_Some in Hlt as [[stack path] Hkv].
    exists stack, path. rewrite Hkv. split; [reflexivity|].
    apply elem_of_map_to_list, list_elem_of_lookup. eauto.
Qed.

(** X8.  The sidecar root file system handed to the executor is the
    configured one when there is one; otherwise it is the path of one of the
    preloaded stacks, whichever the range over the map yields first, and it
    is empty when no stack is preloaded.  It is chosen before the walk: a
    root file system found by the walk is never chosen. *)
Theorem sidecar_rootfs_choice (E : Env) (cfg : RepConfig) (i : ref)
    (cell zone : string) (m : gmap string string) (sidecar : string) (metron : ref) :
  configOf E = Some cfg ->
  heap (run E).2 !! i = Some (ExecutorClient cell zone m sidecar metron) ->
  (SidecarRootFSPath cfg <> ""%string -> sidecar = SidecarRootFSPath cfg) /\
  (SidecarRootFSPath cfg = ""%string ->
   (PreloadedRootFS_StackPathMap cfg = ∅ -> sidecar = ""%string) /\
   (PreloadedRootFS_StackPathMap cfg <> ∅ ->
    exists stack, PreloadedRootFS_StackPathMap cfg !! stack = Some sidecar)).
Proof.
  intros Hcfg Hi.
  destruct (run_lookup E i _ Hi) as (cfg' & Hcfg' & Hw & _).
  assert (cfg' = cfg) as -> by congruence.
  wiring_cases Hw. injection Hw as _ _ _ <-. unfold sidecarOf.
  destruct (rangeFirst_of_map (mapRangeStart E) (PreloadedRootFS_StackPathMap cfg))
    as [Hempty Hsome].
  split.
  - intros Hne. destruct (String.eqb (SidecarRootFSPath cfg) "") eqn:Heq; [|reflexivity].
    apply String.eqb_eq in Heq. contradiction.
  - intros ->. cbn [String.eqb]. split.
    + intros Hm. rewrite (Hempty Hm). reflexivity.
    + intros Hm. destruct (Hsome Hm) as (stack & path & -> & Hpath).
      exists stack. exact Hpath.
Qed.

Lemma sidecar_rootfs_choice_witness :
  (exists stack,
     PreloadedRootFS_StackPathMap Sample.config !! stack
     = Some "/var/vcap/packages/cflinuxfs4/rootfs.tar"%string) /\
  "/var/vcap/packages/healthcheck/rootfs.tar"%string
  = SidecarRootFSPath MoreSamples.debugConfig.
Proof.
  split.
  - apply (sidecar_rootfs_choice Sample.good Sample.config 1 "cell_z1_0" "z1"
             (rootFSMapOf Sample.good Sample.config)
             "/var/vcap/packages/cflinuxfs4/rootfs.tar" 0).
    + reflexivity.
    + vm_compute. reflexivity.
    + reflexivity.
    + vm_compute. discriminate.
  - apply (sidecar_rootfs_choice MoreSamples.debugged MoreSamples.debugConfig 1 "cell_z1_0"
             "z1" (rootFSMapOf MoreSamples.debugged MoreSamples.debugConfig)
             "/var/vcap/packages/healthcheck/rootfs.tar" 0).
    + reflexivity.
    + vm_compute. reflexivity.
    + discriminate.
Defined.





Lemma executor_runner_not_own name r ems :
  (name, RunnerOf r) ∉ map (fun n : string => (n, ExecutorRunner n)) ems.
Proof.
  intros Hin. apply list_elem_of_In, in_map_iff in Hin as (n & Hn & _). discriminate Hn.
Qed.

(** X11.  The group is started with the debug server first when a debug
    address is configured, then the members of the executor in the order its
    initializer gave them, then the eight members of [main] in the order
    presence, http_server, https_server, evacuation-cleanup, bulker,
    event-consumer, evacuator, request-metrics-notifier.  Every member that
    [main] built runs the object of the kind its name says, the http server
    listens on the listen address and the https server on the securable
    one. *)
Theorem group_members_in_order (E : Env) (cfg : RepConfig) (ms : list (string * Runner)) :
  configOf E = Some cfg ->
  groupOf (trace (run E).2) = Some ms ->
  (exists ems,
     executorinit_Initialize E = inl ems /\
     ms = (if String.eqb (DebugAddress cfg) "" then []
           else [("debug-server"%string, RunnerOf 19)])
          ++ map (fun n => (n, ExecutorRunner n)) ems ++ ownMembers) /\
  (forall name r, (name, RunnerOf r) ∈ ms ->
     exists o, heap (run E).2 !! r = Some o /\ runsAs name o = true) /\
  (forall r, ("http_server"%string, RunnerOf r) ∈ ms ->
     exists routes handlers,
       heap (run E).2 !! r = Some (TLSServer (ListenAddr cfg) routes handlers)) /\
  (forall r, ("https_server"%string, RunnerOf r) ∈ ms ->
     exists routes handlers,
       heap (run E).2 !! r = Some (TLSServer (ListenAddrSecurable cfg) routes handlers)).
Proof.
  intros Hcfg Hg.
  assert (serving (run E).2 = true) as Hs by (unfold serving; rewrite Hg; reflexivity).
  destruct (serving_configured E Hs) as (cfg' & ems & Hcfg' & Hems & Hg' & Hheap & _).
  assert (cfg' = cfg) as -> by congruence.
  rewrite Hg in Hg'. injection Hg' as ->.
  assert (forall name r, (name, RunnerOf r) ∈ groupMembers cfg ems ->
            (name, RunnerOf r) ∈ ownMembers \/
            (debugConfigured cfg = true /\ name = "debug-server"%string /\ r = 19%nat))
    as Hcases.
  { intros name r. unfold groupMembers, membersOf.
    destruct (debugConfigured cfg); cbn [app]; rewrite ?elem_of_cons, elem_of_app.
    - intros [Heq | [Hin | Hin]]; [injection Heq as -> ->; auto | | auto].
      exfalso. exact (executor_runner_not_own _ _ _ Hin).
    - intros [Hin | Hin]; [|auto]. exfalso. exact (executor_runner_not_own _ _ _ Hin). }
  assert (forall name r, (name, RunnerOf r) ∈ ownMembers ->
            (r < 19)%nat /\ exists o, wiring E cfg !! r = Some o /\ runsAs name o = true)
    as Hown.
  { intros name r Hin. unfold ownMembers in Hin.
    rewrite !elem_of_cons in Hin.
    repeat (lazymatch type of Hin with
            | _ \/ _ =>
                destruct Hin as [Heq | Hin];
                [injection Heq as -> ->; split; [lia|eexists; split; reflexivity]|]
            end).
    apply elem_of_nil in Hin. contradiction. }
  split; [|split; [|split]].
  - exists ems. split; [exact Hems|].
    unfold groupMembers, membersOf, debugConfigured.
    destruct (String.eqb (DebugAddress cfg) ""); reflexivity.
  - intros name r Hin. rewrite Hheap.
    destruct (Hcases name r Hin) as [Hin' | (Hdebug & -> & ->)].
    + destruct (Hown name r Hin') as (Hlt & o & Ho & Hruns).
      exists o. rewrite (built_lookup E cfg r Hlt). auto.
    + unfold built. rewrite Hdebug. eexists. split; reflexivity.
  - intros r Hin. rewrite Hheap.
    destruct (Hcases _ r Hin) as [Hin' | (_ & Hname & _)]; [|discriminate Hname].
    unfold ownMembers in Hin'. rewrite !elem_of_cons in Hin'.
    repeat (lazymatch type of Hin' with
            | _ \/ _ => destruct Hin' as [Heq | Hin']; [try (exfalso; congruence)|]
            end);
      try (apply elem_of_nil in Hin'; contradiction).
    injection Heq as ->. rewrite built_lookup by lia. do 2 eexists. reflexivity.
  - intros r Hin. rewrite Hheap.
    destruct (Hcases _ r Hin) as [Hin' | (_ & Hname & _)]; [|discriminate Hname].
    unfold ownMembers in Hin'. rewrite !elem_of_cons in Hin'.
    repeat (lazymatch type of Hin' with
            | _ \/ _ => destruct Hin' as [Heq | Hin']; [try (exfalso; congruence)|]
            end);
      try (apply elem_of_nil in Hin'; contradiction).
    injection Heq as ->. rewrite built_lookup by lia. do 2 eexists. reflexivity.
Qed.

Lemma group_members_in_order_witness :
  (exists routes handlers,
     heap (run MoreSamples.debugged).2 !! 12%nat
     = Some (TLSServer (ListenAddr MoreSamples.debugConfig) routes handlers)) /\
  (exists o, heap (run MoreSamples.debugged).2 !! 19%nat = Some o /\
             runsAs "debug-server" o = true).
Proof.
  destruct (group_members_in_order MoreSamples.debugged MoreSamples.debugConfig
              (groupMembers MoreSamples.debugConfig ["volman-syncer"; "depot-client"]%string))
    as (_ & Hruns & Hhttp & _).
  - reflexivity.
  - vm_compute. reflexivity.
  - split.
    + apply Hhttp. cbn. in_list.
    + apply Hruns. cbn. in_list.
Defined.

(** ** How a run ends *)

Lemma run_endings E cfg :
  configOf E = Some cfg -> runEnding cfg (run E).1 (run E).2.
Proof.
  intros Hcfg. apply (run_wp E cfg (runEnding cfg) Hcfg). unfold runEnding.
  wp_run.
  all: try match goal with
           | H : verifyOutcome _ _ = Exit _ |- _ =>
               exfalso; exact (verifyOutcome_no_exit _ _ _ H)
           end.
  all: unfold cleanupRegistered, occurrences;
    cbn [heap trace List.length List.filter isExecutorCleanedUp isEmitterStarted
         isFatalLogged isExit isPanic negb andb Nat.leb lastEvent lastLogged
         groupOf afterGroup].
  all: repeat match goal with |- _ /\ _ => split end.
  all: rewrite ?andb_false_r.
  all: try reflexivity; try lia; try discriminate.
  all: try (intros code Hcode; first [discriminate Hcode | injection Hcode as <-];
            split; [reflexivity|eexists; split; [reflexivity|in_list]]).
  all: try (intros _; reflexivity).
  all: try (intros _; eexists; split; [reflexivity|split; [reflexivity|in_list]]).
  all: try (intros _; eexists; split; reflexivity).
  all: try (intros H; discriminate H).
  all: try (intros ms H; discriminate H).
  all: try (intros ms _; split; [reflexivity|intros H; first [discriminate H|reflexivity]]).
Qed.

Lemma run_endings_unconfigured E :
  configOf E = None -> exists v, (run E).1 = Panic v /\ (run E).2 = st0.
Proof. intros H. destruct (run_unconfigured E H) as [v ->]. eauto. Qed.

(** X12.  The cleanup of the executor client is deferred: it runs at most
    once, as the last thing the process does, exactly in the runs that got as
    far as building the executor client and end by returning from [main] or
    by a panic.  A run that leaves through [os.Exit] skips it; in particular
    it is skipped when a member of the group ends with an error. *)
Theorem executor_cleanup_is_deferred (E : Env) :
  let r := (run E).1 in
  let st := (run E).2 in
  let cleanups := occurrences isExecutorCleanedUp (trace st) in
  (cleanups <= 1)%nat /\
  (cleanups = 1%nat <-> cleanupRegistered st = true /\ isExit r = false) /\
  (cleanups = 1%nat -> lastEvent (trace st) = Some ExecutorCleanedUp) /\
  (forall ms name runner err,
     groupOf (trace st) = Some ms -> (name, runner) ∈ ms ->
     memberExit E name = Some (Some err) ->
     cleanups = 0%nat).
Proof.
  cbn zeta. destruct (configOf E) as [cfg|] eqn:Hcfg.
  - destruct (run_endings E cfg Hcfg) as (Hcount & Hlast & _).
    split; [|split; [|split]].
    + rewrite Hcount. destruct (_ && _); lia.
    + rewrite Hcount. destruct (cleanupRegistered (run E).2), (isExit (run E).1);
        cbn; split; first [intros [H1 H2]; discriminate | intros H; discriminate | auto].
    + exact Hlast.
    + intros ms name runner err Hg Hin Hexit.
      assert (serving (run E).2 = true) as Hs by (unfold serving; rewrite Hg; reflexivity).
      destruct (serving_configured E Hs) as (cfg' & ems & _ & _ & Hg' & _ & Hres).
      rewrite Hg in Hg'. injection Hg' as ->.
      unfold groupOutcome in Hres.
      destruct (groupWait_failure _ _ _ _ _ Hin Hexit) as [e He]. rewrite He in Hres.
      rewrite Hcount, Hres. cbn [isExit negb]. rewrite andb_false_r. reflexivity.
  - destruct (run_endings_unconfigured E Hcfg) as (v & Hr & Hst). rewrite Hr, Hst.
    cbn. split; [lia|]. split; [split; [discriminate|intros [H _]; discriminate]|].
    split; [discriminate|]. intros ms name runner err H. discriminate H.
Qed.

Lemma executor_cleanup_is_deferred_witness :
  (occurrences isExecutorCleanedUp (trace (run Sample.good).2) = 1%nat /\
   lastEvent (trace (run Sample.good).2) = Some ExecutorCleanedUp) /\
  occurrences isExecutorCleanedUp (trace (run Sample.noPort).2) = 1%nat /\
  occurrences isExecutorCleanedUp (trace (run Sample.presenceLost).2) = 0%nat.
Proof.
  destruct (executor_cleanup_is_deferred Sample.good) as (_ & Hiff & Hlast & _).
  destruct (executor_cleanup_is_deferred Sample.noPort) as (_ & Hiff' & _).
  destruct (executor_cleanup_is_deferred Sample.presenceLost) as (_ & _ & _ & Hskip).
  assert (occurrences isExecutorCleanedUp (trace (run Sample.good).2) = 1%nat) as H1.
  { apply Hiff. split; vm_compute; reflexivity. }
  split; [split; [exact H1|exact (Hlast H1)]|]. split.
  - apply Hiff'. split; vm_compute; reflexivity.
  - apply (Hskip (groupMembers Sample.config ["volman-syncer"; "depot-client"]%string)
             "presence"%string (RunnerOf 7) (Err "lost lock")).
    + vm_compute. reflexivity.
    + apply own_member_in_group. unfold ownMembers. in_list.
    + reflexivity.
Defined.

(** X13.  Whenever the process leaves through [os.Exit] the status is 1 and
    the last thing it did was to log the cause at error level: the missing
    cell id, the metron client or the executor that could not be initialized,
    or the failure of the group. *)
Theorem every_exit_has_status_1 (E : Env) (code : Z) :
  (run E).1 = Exit code ->
  code = 1%Z /\
  exists action,
    lastEvent (trace (run E).2) = Some (Logged ERROR action) /\
    action ∈ ["invalid-cell-id"; "failed-to-initialize-metron-client";
              "failed-to-initialize-executor"; "exited-with-failure"]%string.
Proof.
  intros Hexit. destruct (configOf E) as [cfg|] eqn:Hcfg.
  - destruct (run_endings E cfg Hcfg) as (_ & _ & H & _). exact (H code Hexit).
  - destruct (run_endings_unconfigured E Hcfg) as (v & Hr & _). congruence.
Qed.

Lemma every_exit_has_status_1_witness :
  (1 = 1)%Z /\
  exists action,
    lastEvent (trace (run Sample.noCellID).2) = Some (Logged ERROR action) /\
    action ∈ ["invalid-cell-id"; "failed-to-initialize-metron-client";
              "failed-to-initialize-executor"; "exited-with-failure"]%string.
Proof.
  apply (every_exit_has_status_1 Sample.noCellID 1). vm_compute. reflexivity.
Defined.

(** X14.  [logger.Fatal] is final: a run logs at most one fatal line, and
    when it has logged one the run ends in a panic and that line is the last
    one logged; its action is one of the nine actions that [main] and its
    initializers log at that level. *)
Theorem fatal_line_is_final (E : Env) :
  let fatals := occurrences isFatalLogged (trace (run E).2) in
  (fatals <= 1)%nat /\
  (fatals = 1%nat ->
   isPanic (run E).1 = true /\
   exists action,
     lastLogged (trace (run E).2) = Some (FATAL, action) /\ action ∈ fatalActions).
Proof.
  cbn zeta. destruct (configOf E) as [cfg|] eqn:Hcfg.
  - destruct (run_endings E cfg Hcfg) as (_ & _ & _ & _ & Hle & Hone & _).
    split; [exact Hle|]. intros H. destruct (Hone H) as (action & Hr & Hlast & Hin).
    split; [rewrite Hr; reflexivity|]. exists action. auto.
  - destruct (run_endings_unconfigured E Hcfg) as (v & Hr & Hst). rewrite Hst.
    cbn. split; [lia|discriminate].
Qed.

Lemma fatal_line_is_final_witness :
  isPanic (run Sample.wrongSAN).1 = true /\
  exists action,
    lastLogged (trace (run Sample.wrongSAN).2) = Some (FATAL, action) /\
    action ∈ fatalActions.
Proof.
  apply (proj2 (fatal_line_is_final Sample.wrongSAN)). vm_compute. reflexivity.
Defined.

(** X15.  The runtime emitter is started at most once, and it is started
    exactly in the runs in which the metron client was created and the
    configuration asks for the v2 API. *)
Theorem emitter_started_with_v2_api (E : Env) (cfg : RepConfig) :
  configOf E = Some cfg ->
  let emitters := occurrences isEmitterStarted (trace (run E).2) in
  (emitters <= 1)%nat /\
  (emitters = 1%nat <->
   UseV2API cfg = true /\ heap (run E).2 !! 0%nat = Some MetronClient).
Proof.
  intros Hcfg. cbn zeta.
  destruct (run_endings E cfg Hcfg) as (_ & _ & _ & Hcount & _).
  pose proof (run_heap_prefix E cfg Hcfg) as Hpre.
  rewrite Hcount. split; [destruct (_ && _); lia|].
  destruct (heap (run E).2) as [|o h] eqn:Hheap; cbn [List.length Nat.leb lookup list_lookup].
  - rewrite andb_false_r. split; [discriminate|intros [_ H]; discriminate H].
  - assert (o = MetronClient) as ->.
    { pose proof (prefix_lookup_Some (o :: h) _ 0%nat o eq_refl Hpre) as H0.
      unfold wiring in H0. cbn [lookup list_lookup] in H0. congruence. }
    rewrite andb_true_r. destruct (UseV2API cfg); split; auto.
    + discriminate.
    + intros [H _]. discriminate H.
Qed.

Lemma emitter_started_with_v2_api_witness :
  occurrences isEmitterStarted (trace (run Sample.good).2) = 1%nat.
Proof.
  apply (proj2 (emitter_started_with_v2_api Sample.good Sample.config eq_refl)).
  split; vm_compute; reflexivity.
Defined.

(** X16.  [main] returns only from a run that started the group: it then
    logs that it started, logs that it exited and runs the deferred cleanup,
    and nothing else.  No failure before the start of the group ends in a
    return.  Once the group is started the run no longer panics: it returns,
    or it logs the failure of the group and exits with status 1. *)
Theorem main_returns_after_the_group (E : Env) :
  let r := (run E).1 in
  let st := (run E).2 in
  (r = Ret tt ->
   exists ms,
     groupOf (trace st) = Some ms /\
     afterGroup (trace st)
     = [Logged INFO "started"; Logged INFO "exited"; ExecutorCleanedUp]) /\
  (forall ms, groupOf (trace st) = Some ms ->
     isPanic r = false /\
     (r = Ret tt \/ r = Exit 1) /\
     (r = Exit 1 ->
      afterGroup (trace st)
      = [Logged INFO "started"; Logged ERROR "exited-with-failure"])).
Proof.
  cbn zeta. destruct (configOf E) as [cfg|] eqn:Hcfg.
  - destruct (run_endings E cfg Hcfg) as (_ & _ & _ & _ & _ & _ & Hret & Hgroup).
    split; [exact Hret|]. intros ms Hms. destruct (Hgroup ms Hms) as [Hpanic Hexit].
    split; [exact Hpanic|]. split; [|exact Hexit].
    pose proof (run_group E cfg Hcfg) as Hg. rewrite Hms in Hg.
    destruct Hg as (_ & _ & ->). unfold groupOutcome.
    destruct (groupWait (memberExit E) ms); auto.
  - destruct (run_endings_unconfigured E Hcfg) as (v & Hr & Hst). rewrite Hr, Hst.
    split; [discriminate|]. intros ms H. discriminate H.
Qed.

Lemma main_returns_after_the_group_witness :
  (exists ms,
     groupOf (trace (run Sample.good).2) = Some ms /\
     afterGroup (trace (run Sample.good).2)
     = [Logged INFO "started"; Logged INFO "exited"; ExecutorCleanedUp]) /\
  afterGroup (trace (run Sample.presenceLost).2)
  = [Logged INFO "started"; Logged ERROR "exited-with-failure"].
Proof.
  split.
  - apply (proj1 (main_returns_after_the_group Sample.good)). vm_compute. reflexivity.
  - apply (proj2 (main_returns_after_the_group Sample.presenceLost)
             (groupMembers Sample.config ["volman-syncer"; "depot-client"]%string)).
    + vm_compute. reflexivity.
    + vm_compute. reflexivity.
Defined.

(** ** Where the entries of the root-filesystem map come from *)

Lemma addRootfs_lookup m p k v :
  addRootfs m p !! k = Some v ->
  m !! k = Some v \/ (v = p /\ isTar p = true /\ stackOf p = k).
Proof.
  unfold addRootfs. destruct (isTar p) eqn:Htar; [|auto].
  destruct (decide (stackOf p = k)) as [<-|Hne].
  - rewrite lookup_insert_eq. intros [= <-]. auto.
  - rewrite lookup_insert_ne by exact Hne. auto.
Qed.

Lemma addRootfs_keeps m p k : is_Some (m !! k) -> is_Some (addRootfs m p !! k).
Proof.
  unfold addRootfs. destruct (isTar p); [|auto].
  destruct (decide (stackOf p = k)) as [<-|Hne].
  - rewrite lookup_insert_eq. eauto.
  - rewrite lookup_insert_ne by exact Hne. auto.
Qed.

Lemma fold_addRootfs_lookup ps : forall m k v,
  fold_left addRootfs ps m !! k = Some v ->
  m !! k = Some v \/ (v ∈ ps /\ isTar v = true /\ stackOf v = k).
Proof.
  induction ps as [|p ps IH]; intros m k v; cbn [fold_left]; [auto|].
  intros H. destruct (IH _ _ _ H) as [H1 | (Hin & Htar & Hk)].
  - destruct (addRootfs_lookup _ _ _ _ H1) as [Hm | (-> & Htar & Hk)]; [auto|].
    right. split; [apply list_elem_of_here|auto].
  - right. split; [apply list_elem_of_further, Hin|auto].
Qed.

Lemma fold_addRootfs_keeps ps : forall m k,
  is_Some (m !! k) -> is_Some (fold_left addRootfs ps m !! k).
Proof.
  induction ps as [|p ps IH]; intros m k H; cbn [fold_left]; [exact H|].
  apply IH, addRootfs_keeps, H.
Qed.

Lemma fold_addRootfs_bound ps : forall m p,
  p ∈ ps -> isTar p = true ->
  exists q, fold_left addRootfs ps m !! stackOf p = Some q /\
            q ∈ ps /\ isTar q = true /\ stackOf q = stackOf p.
Proof.
  induction ps as [|p0 ps IH]; intros m p Hin Htar.
  - apply elem_of_nil in Hin. contradiction.
  - cbn [fold_left]. apply elem_of_cons in Hin as [->|Hin].
    + assert (addRootfs m p0 !! stackOf p0 = Some p0) as Hset.
      { unfold addRootfs. rewrite Htar. apply lookup_insert_eq. }
      destruct (fold_addRootfs_keeps ps _ _ (mk_is_Some _ _ Hset)) as [q Hq].
      exists q. split; [exact Hq|].
      destruct (fold_addRootfs_lookup _ _ _ _ Hq) as [H1 | (Hq1 & Hq2 & Hq3)].
      * assert (q = p0) as -> by congruence.
        split; [apply list_elem_of_here|auto].
      * split; [apply list_elem_of_further, Hq1|auto].
    + destruct (IH (addRootfs m p0) p Hin Htar) as (q & Hq & Hq1 & Hq2 & Hq3).
      exists q. split; [exact Hq|]. split; [apply list_elem_of_further, Hq1|auto].
Qed.

(** X17.  The walk only adds to the root-filesystem map or overwrites in it:
    every entry of the map handed on is an entry of the preloaded map or
    binds the stack name of a visited tar path to that path; every preloaded
    name keeps an entry, with its preloaded path unless a visited tar path
    has that name; every visited tar path has its name bound to a visited tar
    path of that name; and when the root of the walk cannot be examined the
    map is the preloaded one. *)
Theorem rootfs_map_provenance (E : Env) (cfg : RepConfig) :
  let preloaded := PreloadedRootFS_StackPathMap cfg in
  let paths := visitedFrom (os_Lstat E (ExtraRootfsDir cfg)) in
  let m := rootFSMapOf E cfg in
  (forall k v, m !! k = Some v ->
     preloaded !! k = Some v \/ (v ∈ paths /\ isTar v = true /\ stackOf v = k)) /\
  (forall k, is_Some (preloaded !! k) -> is_Some (m !! k)) /\
  (forall k, (forall p, p ∈ paths -> isTar p = true -> stackOf p <> k) ->
     m !! k = preloaded !! k) /\
  (forall p, p ∈ paths -> isTar p = true ->
     exists q, m !! stackOf p = Some q /\
               q ∈ paths /\ isTar q = true /\ stackOf q = stackOf p) /\
  (forall err, os_Lstat E (ExtraRootfsDir cfg) = inr err -> m = preloaded).
Proof.
  cbn zeta. unfold rootFSMapOf. rewrite WalkDir_visited.
  split; [|split; [|split; [|split]]].
  - intros k v. apply fold_addRootfs_lookup.
  - intros k. apply fold_addRootfs_keeps.
  - intros k. apply fold_addRootfs_other.
  - intros p. apply fold_addRootfs_bound.
  - intros err ->. reflexivity.
Qed.

Lemma rootfs_map_provenance_witness :
  (exists q, rootFSMapOf Sample.good Sample.config !! "jammy"%string = Some q /\
     q ∈ visitedFrom (os_Lstat Sample.good (ExtraRootfsDir Sample.config)) /\
     isTar q = true /\ stackOf q = "jammy"%string) /\
  rootFSMapOf MoreSamples.debugged MoreSamples.debugConfig
  = PreloadedRootFS_StackPathMap MoreSamples.debugConfig.
Proof.
  destruct (rootfs_map_provenance Sample.good Sample.config) as (_ & _ & _ & Hbound & _).
  destruct (rootfs_map_provenance MoreSamples.debugged MoreSamples.debugConfig)
    as (_ & _ & _ & _ & Hmissing).
  split.
  - apply (Hbound "/var/vcap/data/extra_rootfs/jammy.TAR"%string).
    + cbn. in_list.
    + vm_compute. reflexivity.
  - apply (Hmissing (Err "no such file or directory")). reflexivity.
Defined.

(** ** The stack name of a path *)

Lemma of_bytes_bytes s : of_bytes (bytes s) = s.
Proof. apply string_of_list_ascii_of_string. Qed.

Lemma bytes_app s t : bytes (s +:+ t) = bytes s ++ bytes t.
Proof.
  induction s as [|c s IH]; [reflexivity|].
  change (bytes (String c s +:+ t)) with (c :: bytes (s +:+ t)).
  rewrite IH. reflexivity.
Qed.

Lemma append_inv_tail s1 s2 t : s1 +:+ t = s2 +:+ t -> s1 = s2.
Proof.
  intros H. apply (f_equal bytes) in H. rewrite !bytes_app in H.
  apply app_inv_tail in H. rewrite <- (of_bytes_bytes s1), <- (of_bytes_bytes s2).
  f_equal. exact H.
Qed.

Lemma ContainsByte_bytes s :
  ContainsByte s "/" = false <-> Forall (fun c => IsPathSeparator c = false) (bytes s).
Proof.
  induction s as [|c s IH]; cbn [ContainsByte].
  - split; [constructor|reflexivity].
  - change (bytes (String c s)) with (c :: bytes s).
    rewrite orb_false_iff, IH, Forall_cons. reflexivity.
Qed.

Lemma extScan_element l rest : forall seen,
  Forall (fun c => IsPathSeparator c = false) l ->
  extScan (l ++ "/"%char :: rest) seen = extScan l seen.
Proof.
  induction l as [|c l IH]; intros seen Hl; [reflexivity|].
  apply Forall_cons in Hl as [Hc Hl]. cbn [app extScan]. rewrite Hc.
  destruct (Ascii.eqb c "."); [reflexivity|]. apply IH, Hl.
Qed.

Lemma lastElement_whole l rest :
  Forall (fun c => IsPathSeparator c = false) l ->
  lastElement (l ++ "/"%char :: rest) = l /\ lastElement l = l.
Proof.
  induction 1 as [|c l Hc _ [IH1 IH2]]; [split; reflexivity|].
  cbn [app lastElement]. rewrite Hc, IH1, IH2. split; reflexivity.
Qed.

Lemma dropSeparators_whole l :
  Forall (fun c => IsPathSeparator c = false) l -> dropSeparators l = l.
Proof. destruct 1 as [|c l Hc _]; cbn [dropSeparators]; [|rewrite Hc]; reflexivity. Qed.

(** What precedes the last element of a path is empty or ends in a
    separator, and the element itself holds none. *)
Lemma lastElement_split b :
  exists rest, b = lastElement b ++ rest /\
    (rest = [] \/ exists r, rest = "/"%char :: r) /\
    Forall (fun c => IsPathSeparator c = false) (lastElement b).
Proof.
  induction b as [|c b (rest & Hb & Hrest & Hall)]; cbn [lastElement].
  - exists []. repeat split; [left; reflexivity|constructor].
  - destruct (IsPathSeparator c) eqn:Hc.
    + exists (c :: b). split; [reflexivity|]. split; [|constructor].
      right. exists b. f_equal. apply Ascii.eqb_eq, Hc.
    + exists rest. split; [cbn [app]; f_equal; exact Hb|]. split; [exact Hrest|].
      constructor; assumption.
Qed.

Lemma Forall_rev_separators l :
  Forall (fun c => IsPathSeparator c = false) l ->
  Forall (fun c => IsPathSeparator c = false) (rev l).
Proof.
  rewrite !Forall_forall. intros H c Hc. apply H.
  apply list_elem_of_In, in_rev, list_elem_of_In, Hc.
Qed.

(** X18.  The stack name depends on the last element of the path only: for
    a non-empty name without a separator, the path of that name in any
    directory has the extension, the base name and the stack name of the name
    itself, and is a tar path exactly when the name is.  So tar files of one
    name in different directories share one key of the map. *)
Theorem stack_name_of_last_element (dir name : string) :
  name <> ""%string -> ContainsByte name "/" = false ->
  let path := dir +:+ String "/" name in
  Ext path = Ext name /\ Base path = name /\
  isTar path = isTar name /\ stackOf path = stackOf name.
Proof.
  intros Hne Hsep. cbn zeta.
  apply ContainsByte_bytes in Hsep. apply Forall_rev_separators in Hsep.
  assert (rev (bytes (dir +:+ String "/" name))
          = rev (bytes name) ++ "/"%char :: rev (bytes dir)) as Hrev.
  { rewrite bytes_app. change (bytes (String "/" name)) with ("/"%char :: bytes name).
    rewrite rev_app_distr. cbn [rev]. rewrite <- app_assoc. reflexivity. }
  assert (rev (bytes name) <> []) as Hnonempty.
  { intros Hnil. apply Hne. rewrite <- (of_bytes_bytes name), <- (rev_involutive (bytes name)),
      Hnil. reflexivity. }
  assert (Ext (dir +:+ String "/" name) = Ext name) as Hext.
  { unfold Ext. rewrite Hrev, extScan_element by exact Hsep. reflexivity. }
  assert (Base name = name) as Hbase0.
  { unfold Base. destruct name as [|c name]; [contradiction|].
    rewrite (dropSeparators_whole _ Hsep), (proj2 (lastElement_whole _ [] Hsep)).
    destruct (rev (bytes (String c name))) as [|x l] eqn:Hl; [contradiction|].
    rewrite <- Hl, rev_involutive. apply of_bytes_bytes. }
  assert (Base (dir +:+ String "/" name) = name) as Hbase.
  { unfold Base. destruct (dir +:+ String "/" name) as [|c p] eqn:Hp.
    - destruct dir; discriminate Hp.
    - rewrite Hrev.
      destruct (rev (bytes name)) as [|x l] eqn:Hl; [contradiction|].
      assert (dropSeparators ((x :: l) ++ "/"%char :: rev (bytes dir))
              = (x :: l) ++ "/"%char :: rev (bytes dir)) as ->.
      { cbn [app dropSeparators]. apply Forall_cons in Hsep as [-> _]. reflexivity. }
      rewrite (proj1 (lastElement_whole _ _ Hsep)).
      rewrite <- Hl, rev_involutive. apply of_bytes_bytes. }
  unfold isTar, stackOf. rewrite Hext, Hbase, Hbase0. auto.
Qed.

Lemma stack_name_of_last_element_witness :
  stackOf ("/var/vcap/data/extra_rootfs/more" +:+ String "/" "cflinuxfs4.tar")
  = stackOf "cflinuxfs4.tar" /\
  isTar ("/var/vcap/data/extra_rootfs/more" +:+ String "/" "cflinuxfs4.tar")
  = isTar "cflinuxfs4.tar".
Proof.
  destruct (stack_name_of_last_element "/var/vcap/data/extra_rootfs/more" "cflinuxfs4.tar")
    as (_ & _ & Htar & Hstack).
  - discriminate.
  - reflexivity.
  - split; [exact Hstack|exact Htar].
Defined.

Lemma tar_path_shape path :
  Ext path <> ""%string ->
  exists a b,
    rev (bytes path) = a ++ "."%char :: b /\
    Forall (fun c => IsPathSeparator c = false) a /\
    Ext path = of_bytes ("."%char :: rev a) /\
    Base path = of_bytes (rev (lastElement b)) +:+ of_bytes ("."%char :: rev a).
Proof.
  intros Hext.
  assert (extScan (rev (bytes path)) [] <> []) as Hscan.
  { intros Hnil. apply Hext. unfold Ext. rewrite Hnil. reflexivity. }
  destruct (extScan_found _ _ Hscan) as (a & b & Hrev & Ha & Hfound).
  rewrite app_nil_r in Hfound. exists a, b.
  split; [exact Hrev|]. split; [exact Ha|]. split.
  - unfold Ext. rewrite Hfound. reflexivity.
  - unfold Base. destruct path as [|c path].
    + destruct a; discriminate Hrev.
    + rewrite Hrev, (dropSeparators_element a b Ha), (lastElement_element a b Ha).
      rewrite <- of_bytes_app.
      destruct a; cbn [app rev]; rewrite ?rev_app_distr; cbn [rev app];
        rewrite <- ?app_assoc; reflexivity.
Qed.

(** X19.  A tar path is a directory part, the stack name and the extension,
    in this order: the directory part is empty or ends in a separator, and
    the stack name holds no separator. *)
Theorem tar_path_decomposition (path : string) :
  isTar path = true ->
  ContainsByte (stackOf path) "/" = false /\
  exists dir,
    path = dir +:+ stackOf path +:+ Ext path /\
    (dir = ""%string \/ exists parent, dir = parent +:+ "/").
Proof.
  intros Htar. pose proof (isTar_has_extension path Htar) as Hext.
  destruct (tar_path_shape path Hext) as (a & b & Hrev & Ha & HExt & HBase).
  assert (stackOf path = of_bytes (rev (lastElement b))) as Hstack.
  { apply (append_inv_tail _ _ (Ext path)).
    rewrite <- (Base_is_stack_and_extension path Hext), HBase, HExt. reflexivity. }
  destruct (lastElement_split b) as (rest & Hb & Hrest & Hall).
  split.
  - rewrite Hstack. apply ContainsByte_bytes. rewrite bytes_of_bytes.
    apply Forall_rev_separators, Hall.
  - exists (of_bytes (rev rest)). split.
    + rewrite Hstack, HExt, <- !of_bytes_app.
      rewrite <- (of_bytes_bytes path) at 1. f_equal.
      rewrite <- (rev_involutive (bytes path)), Hrev, Hb at 1.
      rewrite rev_app_distr. cbn [rev]. rewrite rev_app_distr, <- !app_assoc.
      reflexivity.
    + destruct Hrest as [->|(r & ->)]; [left; reflexivity|].
      right. exists (of_bytes (rev r)). cbn [rev]. apply of_bytes_app.
Qed.

Lemma tar_path_decomposition_witness :
  ContainsByte (stackOf "/var/vcap/data/extra_rootfs/jammy.TAR") "/" = false /\
  exists dir,
    "/var/vcap/data/extra_rootfs/jammy.TAR"%string
    = dir +:+ stackOf "/var/vcap/data/extra_rootfs/jammy.TAR"
          +:+ Ext "/var/vcap/data/extra_rootfs/jammy.TAR" /\
    (dir = ""%string \/ exists parent, dir = parent +:+ "/").
Proof.
  apply (tar_path_decomposition "/var/vcap/data/extra_rootfs/jammy.TAR").
  vm_compute. reflexivity.
Defined.

(** ** [strings.TrimSuffix] *)

Lemma isPrefix_split p : forall l,
  isPrefix p l = true -> exists rest, l = p ++ rest.
Proof.
  induction p as [|a p IH]; intros l H; [exists l; reflexivity|].
  destruct l as [|b l]; [discriminate H|]. cbn [isPrefix] in H.
  apply andb_true_iff in H as [Hab H]. apply Ascii.eqb_eq in Hab as ->.
  destruct (IH l H) as [rest ->]. exists rest. reflexivity.
Qed.

(** X20.  [TrimSuffix] undoes the appending of the suffix, leaves alone a
    string that does not end in the suffix, and a string ends in the suffix
    exactly when it is some string followed by it.  So the key under which a
    tar path is stored, followed by the extension, is the base name again. *)
Theorem TrimSuffix_round_trip (s suffix : string) :
  TrimSuffix (s +:+ suffix) suffix = s /\
  (HasSuffix s suffix = false -> TrimSuffix s suffix = s) /\
  (HasSuffix s suffix = true <-> exists p, s = p +:+ suffix) /\
  (HasSuffix s suffix = true -> TrimSuffix s suffix +:+ suffix = s).
Proof.
  assert (forall p, HasSuffix (p +:+ suffix) suffix = true) as Hhas.
  { intros p. unfold HasSuffix. rewrite bytes_app, rev_app_distr. apply isPrefix_app. }
  assert (forall p, TrimSuffix (p +:+ suffix) suffix = p) as Htrim.
  { intros p. unfold TrimSuffix. rewrite Hhas, bytes_app, rev_app_distr.
    rewrite <- (length_rev (bytes suffix)), drop_app_length, rev_involutive.
    apply of_bytes_bytes. }
  assert (HasSuffix s suffix = true -> exists p, s = p +:+ suffix) as Hsplit.
  { unfold HasSuffix. intros H. destruct (isPrefix_split _ _ H) as [rest Hrest].
    exists (of_bytes (rev rest)).
    rewrite <- (of_bytes_bytes s), <- (of_bytes_bytes suffix) at 1.
    rewrite <- of_bytes_app. f_equal.
    rewrite <- (rev_involutive (bytes s)), Hrest, rev_app_distr, rev_involutive.
    reflexivity. }
  split; [apply Htrim|]. split; [|split].
  - intros H. unfold TrimSuffix. rewrite H. reflexivity.
  - split; [exact Hsplit|]. intros [p ->]. apply Hhas.
  - intros H. destruct (Hsplit H) as [p ->]. rewrite Htrim. reflexivity.
Qed.

Lemma TrimSuffix_round_trip_witness :
  TrimSuffix "cflinuxfs4.tar" ".tar" +:+ ".tar" = "cflinuxfs4.tar"%string.
Proof.
  apply (proj2 (proj2 (proj2 (TrimSuffix_round_trip "cflinuxfs4.tar" ".tar")))).
  reflexivity.
Defined.
